(** * Facebook posts search scraper: the post extractor and its count parser

    A shallow embedding of [src/extractors/facebook_parser.py]
    ([FacebookPostParser]) and of the scroll loop that drives it.

    Conventions of the embedding.
    - A Python [str] is a [string] whose characters are read as code points
      below 256; the predicates of [Py] follow Python's Unicode tables on that
      range.
    - A Python [int] is a [Z].
    - A Python [float] is a binary64 value of [SpecFloat] (precision 53,
      maximal exponent 1024), rounded to nearest, ties to even.
    - An awaited call that may raise returns an [outcome]; [try]/[except
      Exception] is [try_except]. *)

From Stdlib Require Import ZArith String Ascii List Lia Bool.
From Stdlib Require Import Floats.SpecFloat.
From Stdlib Require DecimalString DecimalPos.
From stdpp Require Import gmap strings.

Import ListNotations.
Local Open Scope Z_scope.

(** ** Exceptions and outcomes *)

Inductive exn : Type :=
| ValueError
| OverflowError
| AutomationError.

Inductive outcome (A : Type) : Type :=
| Returns (a : A)
| Raises (e : exn).

Arguments Returns {A} a.
Arguments Raises {A} e.

Global Instance outcome_bind : MBind outcome := fun A B k m =>
  match m with
  | Returns a => k a
  | Raises e => Raises e
  end.

(** [try: m / except Exception: h], for a handler that does not raise. *)
Definition try_except {A : Type} (m : outcome A) (h : exn -> A) : A :=
  match m with
  | Returns a => a
  | Raises e => h e
  end.

(** ** Python built-ins used by the parser *)

Module Py.

Definition code (c : ascii) : Z := Z.of_nat (nat_of_ascii c).

(** [0-9]: what [\d] matches below code point 256, and the characters
    [int()] and [float()] read as decimal digits. *)
Definition is_decimal (c : ascii) : bool :=
  (48 <=? code c) && (code c <=? 57).

(** [str.isdigit] for one character: the decimal digits and the
    superscripts U+00B2, U+00B3 and U+00B9. *)
Definition char_isdigit (c : ascii) : bool :=
  is_decimal c || (code c =? 178) || (code c =? 179) || (code c =? 185).

(** [str.isspace] for one character: TAB..CR, FS..US, SPACE, NEL, NBSP. *)
Definition char_isspace (c : ascii) : bool :=
  ((9 <=? code c) && (code c <=? 13))
  || ((28 <=? code c) && (code c <=? 32))
  || (code c =? 133) || (code c =? 160).

(** [str.lower] for one character: A-Z and the Latin-1 capitals.  Code
    points from 256 on are outside the embedding; among them is U+212A
    KELVIN SIGN, whose lower case is "k", so a property that rests on which
    characters lower to a given letter is stated on [ascii_lower] below. *)
Definition char_lower (c : ascii) : ascii :=
  if ((65 <=? code c) && (code c <=? 90))
     || ((192 <=? code c) && (code c <=? 222) && negb (code c =? 215))
  then ascii_of_nat (nat_of_ascii c + 32)
  else c.

Fixpoint lower (s : string) : string :=
  match s with
  | EmptyString => EmptyString
  | String c r => String (char_lower c) (lower r)
  end.

Fixpoint lstrip (s : string) : string :=
  match s with
  | EmptyString => EmptyString
  | String c r => if char_isspace c then lstrip r else s
  end.

Fixpoint rstrip (s : string) : string :=
  match s with
  | EmptyString => EmptyString
  | String c r =>
      match rstrip r with
      | EmptyString => if char_isspace c then EmptyString else String c EmptyString
      | r' => String c r'
      end
  end.

Definition strip (s : string) : string := rstrip (lstrip s).

(** [sub in s] *)
Fixpoint contains (sub s : string) : bool :=
  String.prefix sub s ||
  match s with
  | EmptyString => false
  | String _ r => contains sub r
  end.

(** [s.replace(",", "")] *)
Fixpoint remove_commas (s : string) : string :=
  match s with
  | EmptyString => EmptyString
  | String c r =>
      if (code c =? 44) then remove_commas r else String c (remove_commas r)
  end.

(** [bool(s)] for an optional string: [None] and the empty string are falsy. *)
Definition truthy (o : option string) : bool :=
  match o with
  | Some (String _ _) => true
  | _ => false
  end.

(** [o or ""] *)
Definition or_empty (o : option string) : string :=
  match o with
  | Some s => s
  | None => EmptyString
  end.

Fixpoint all_chars (p : ascii -> bool) (s : string) : bool :=
  match s with
  | EmptyString => true
  | String c r => p c && all_chars p r
  end.

(** [s.isdigit()]: non-empty and made of digit characters. *)
Definition isdigit (s : string) : bool :=
  match s with
  | EmptyString => false
  | _ => all_chars char_isdigit s
  end.

Fixpoint digits_value (acc : Z) (s : string) : Z :=
  match s with
  | EmptyString => acc
  | String c r => digits_value (10 * acc + (code c - 48)) r
  end.

(** The interpreter's default limit on the digits of an integer string
    ([sys.get_int_max_str_digits()]). *)
Definition int_max_str_digits : nat := 4300.

(** [int(s)] on a string for which [s.isdigit()] holds: the superscript
    digits are no decimal digits and raise [ValueError], and so does a
    string of more digits than the interpreter's limit, leading zeros
    counted. *)
Definition int_of_str (s : string) : outcome Z :=
  if all_chars is_decimal s && negb (String.eqb s EmptyString)
     && (String.length s <=? int_max_str_digits)%nat
  then Returns (digits_value 0 s)
  else Raises ValueError.

(** [str(n)] for an integer. *)
Definition str_of_int (n : Z) : string :=
  DecimalString.NilZero.string_of_int (Z.to_int n).

(** *** Floats *)

Definition prec : Z := 53.
Definition emax : Z := 1024.

Definition float_of_int (n : Z) : spec_float := binary_normalize prec emax n 0 false.

(** The decimal [m / 10^k], correctly rounded. *)
Definition float_of_decimal (m : Z) (k : nat) : spec_float :=
  match m with
  | Zpos p =>
      SFdiv prec emax (S754_finite false p 0)
            (S754_finite false (Z.to_pos (10 ^ Z.of_nat k)) 0)
  | _ => S754_zero false
  end.

(** Reads [digits* [. digits*]]: the digits as one integer, the number of
    digits after the point, and whether a digit was seen at all. *)
Fixpoint scan_decimal (s : string) (seen_dot : bool) (m : Z) (k : nat) (any : bool)
  : option (Z * nat) :=
  match s with
  | EmptyString => if any then Some (m, k) else None
  | String c r =>
      if is_decimal c
      then scan_decimal r seen_dot (10 * m + (code c - 48))
                        (if seen_dot then S k else k) true
      else if (code c =? 46) && negb seen_dot
      then scan_decimal r true m k any
      else None
  end.

(** [float(s)] for [s] made of decimal digits and points, which is all the
    parser passes to it; any other character is rejected here. *)
Definition float_of_str (s : string) : outcome spec_float :=
  match scan_decimal s false 0 0%nat false with
  | Some (m, k) => Returns (float_of_decimal m k)
  | None => Raises ValueError
  end.

Definition float_mul (x y : spec_float) : spec_float := SFmul prec emax x y.

(** [int(x)] for a float: truncation toward zero; infinities raise
    [OverflowError], NaN raises [ValueError]. *)
Definition int_of_float (x : spec_float) : outcome Z :=
  match x with
  | S754_zero _ => Returns 0
  | S754_infinity _ => Raises OverflowError
  | S754_nan => Raises ValueError
  | S754_finite s m e =>
      let a := if 0 <=? e then Zpos m * 2 ^ e else Zpos m / 2 ^ (- e) in
      Returns (if s then - a else a)
  end.

End Py.

(** ** The engagement-count parser *)

(** A character of the class [[\d.,]]. *)
Definition is_count_char (c : ascii) : bool :=
  Py.is_decimal c || (Py.code c =? 46) || (Py.code c =? 44).

Fixpoint take_count_chars (s : string) : string :=
  match s with
  | EmptyString => EmptyString
  | String c r => if is_count_char c then String c (take_count_chars r) else EmptyString
  end.

(** [re.search(r"([\d.,]+)\s*[KkMm]?", text)], reduced to its group 1: the
    longest run of [[\d.,]] that starts at the first such character.  The
    tail [\s*[KkMm]?] always matches, possibly empty, so it never changes
    where the match starts or what the group holds. *)
Fixpoint search_count_run (text : string) : option string :=
  match text with
  | EmptyString => None
  | String c r =>
      if is_count_char c then Some (take_count_chars text) else search_count_run r
  end.

(** [re.search(r"[Kk]", text)] and [re.search(r"[Mm]", text)] as booleans. *)
Fixpoint search_char (p : ascii -> bool) (text : string) : bool :=
  match text with
  | EmptyString => false
  | String c r => p c || search_char p r
  end.

Definition is_Kk (c : ascii) : bool := (Py.code c =? 75) || (Py.code c =? 107).
Definition is_Mm (c : ascii) : bool := (Py.code c =? 77) || (Py.code c =? 109).

Definition _parse_engagement_number (text : string) : outcome (option Z) :=
  match search_count_run text with
  | None => Returns None
  | Some g1 =>
      let number_str := Py.remove_commas g1 in
      match Py.float_of_str number_str with
      | Raises _ => Returns None
      | Returns value =>
          let multiplier :=
            if search_char is_Kk text then 1000
            else if search_char is_Mm text then 1000000
            else 1 in
          v ← Py.int_of_float (Py.float_mul value (Py.float_of_int multiplier));
          Returns (Some v)
      end
  end.

(** ** The interpreter and library services the parser calls

    [hash] is the built-in string hash: a fixed function for the lifetime of
    one interpreter process.  [json_loads] is [json.loads] applied to the
    metadata attribute, with its result read as described at [pydata]. *)

(** A decoded JSON value, as far as [str()] tells values apart. *)
Inductive pyval : Type :=
| PNone
| PBool (b : bool)
| PInt (n : Z)
| PStr (s : string)
| POther (rendering : string).  (* a float, list or dict, with what [str()] prints *)

(** The decoded metadata: a [dict], or anything else. *)
Inductive pydata : Type :=
| PDict (d : gmap string pyval)
| PNotDict.

Class Runtime : Type := {
  hash : string -> Z;
  json_loads : string -> outcome pydata
}.

(** [str(value)] *)
Definition py_str (v : pyval) : string :=
  match v with
  | PNone => "None"
  | PBool true => "True"
  | PBool false => "False"
  | PInt n => Py.str_of_int n
  | PStr s => s
  | POther r => r
  end.

(** ** Element handles of the automation surface *)

Record handle : Type := {
  get_attribute : string -> outcome (option string);
  inner_text : outcome string
}.

(** One content block, with what the parser observes while it parses it:
    the block's own attributes, its selector queries, and the clock. *)
Record article : Type := {
  self : handle;
  query_selector : string -> outcome (option handle);
  query_selector_all : string -> outcome (list handle);
  time_time : Z  (* [int(time.time())] when the block is parsed *)
}.

Record page : Type := {
  page_query_selector_all : string -> outcome (list article)
}.

(** The page whose content blocks are [arts]. *)
Definition snapshot (arts : list article) : page :=
  {| page_query_selector_all := fun _ => Returns arts |}.

(** ** The post record *)

Record FacebookPost : Type := {
  facebookUrl : option string;
  pageId : option string;
  postId : option string;
  pageName : option string;
  url : option string;
  time : option string;
  timestamp : option Z;
  likes : option Z;
  comments : option Z;
  shares : option Z;
  text : option string;
  link : option string;
  thumb : option string;
  topLevelUrl : option string
}.

(** [post.postId = pid] *)
Definition set_postId (pid : string) (p : FacebookPost) : FacebookPost :=
  {| facebookUrl := facebookUrl p; pageId := pageId p; postId := Some pid;
     pageName := pageName p; url := url p; time := time p;
     timestamp := timestamp p; likes := likes p; comments := comments p;
     shares := shares p; text := text p; link := link p; thumb := thumb p;
     topLevelUrl := topLevelUrl p |}.

(** ** [FacebookPostParser] *)

Fixpoint _safe_get_nested (data : pydata) (keys : list string) : option string :=
  match data with
  | PNotDict => None
  | PDict d =>
      match keys with
      | [] => None
      | key :: keys' =>
          match d !! key with
          | Some value =>
              match value with
              | PNone => None
              | _ => Some (py_str value)
              end
          | None => _safe_get_nested data keys'
          end
      end
  end.

(** The three counters of [_parse_engagement]. *)
Definition counts : Type := (option Z * option Z * option Z)%type.

Fixpoint _parse_engagement_nodes (nodes : list handle) (acc : counts) : outcome counts :=
  match nodes with
  | [] => Returns acc
  | node :: rest =>
      match inner_text node with
      | Raises _ => _parse_engagement_nodes rest acc
      | Returns t =>
          let txt := Py.strip t in
          let lower := Py.lower txt in
          let '(likes, comments, shares) := acc in
          if Py.contains "like" lower then
            likes_value ← _parse_engagement_number txt;
            _parse_engagement_nodes rest
              (match likes_value with Some v => Some v | None => likes end,
               comments, shares)
          else if Py.contains "comment" lower then
            comments_value ← _parse_engagement_number txt;
            _parse_engagement_nodes rest
              (likes,
               match comments_value with Some v => Some v | None => comments end,
               shares)
          else if Py.contains "share" lower then
            shares_value ← _parse_engagement_number txt;
            _parse_engagement_nodes rest
              (likes, comments,
               match shares_value with Some v => Some v | None => shares end)
          else _parse_engagement_nodes rest acc
      end
  end.

Definition _parse_engagement (a : article) : outcome counts :=
  nodes ← query_selector_all a "span[dir='auto'], div[dir='auto']";
  _parse_engagement_nodes nodes (None, None, None).

(** [x if node else None], for an awaited read [x] of the node. *)
Definition read_if {A : Type} (node : option handle) (read : handle -> outcome (option A))
  : outcome (option A) :=
  match node with
  | Some h => read h
  | None => Returns None
  end.

(** The timestamp block of [_parse_article]: [(time_str, timestamp)] as they
    stand before the extraction-time default is applied. *)
Definition resolve_time (time_node : option handle) : option string * option Z :=
  match time_node with
  | None => (None, None)
  | Some tn =>
      let time_str := try_except (get_attribute tn "datetime") (fun _ => None) in
      let time_str :=
        if Py.truthy time_str then time_str
        else try_except (t ← inner_text tn; Returns (Some t)) (fun _ => None) in
      let timestamp :=
        try_except
          (time_attr ← get_attribute tn "data-utime";
           if Py.truthy time_attr && Py.isdigit (Py.or_empty time_attr)
           then n ← Py.int_of_str (Py.or_empty time_attr); Returns (Some n)
           else Returns None)
          (fun _ => None) in
      (time_str, timestamp)
  end.

(** [if not timestamp: timestamp = int(time.time())] *)
Definition default_timestamp (timestamp : option Z) (now : Z) : Z :=
  match timestamp with
  | None => now
  | Some n => if n =? 0 then now else n
  end.

Section Parser.
Context `{Runtime}.

Definition load_data_ft (data_ft_raw : option string) : pydata :=
  if Py.truthy data_ft_raw
  then try_except (json_loads (Py.or_empty data_ft_raw)) (fun _ => PDict ∅)
  else PDict ∅.

Definition _parse_article (a : article) : outcome FacebookPost :=
  data_ft_raw ← get_attribute (self a) "data-ft";
  let data_ft := load_data_ft data_ft_raw in
  let page_id := _safe_get_nested data_ft ["page_id"; "page_id"] in
  let post_id := _safe_get_nested data_ft ["top_level_post_id"; "mf_story_key"] in
  page_link ← query_selector a "h3 a[href*='facebook.com/']";
  facebook_url ← read_if page_link (fun h => get_attribute h "href");
  page_name ← read_if page_link (fun h =>
                 t ← inner_text h;
                 Returns (if Py.truthy (Some t) then Some t else None));
  post_link ← query_selector a "a[href*='/posts/'], a[href*='pfbid']";
  post_url ← read_if post_link (fun h => get_attribute h "href");
  time_node ← query_selector a "a[aria-label*=' at '], a[role='link'] time";
  let '(time_str, timestamp) := resolve_time time_node in
  let timestamp := default_timestamp timestamp (time_time a) in
  text_node ← query_selector a "div[dir='auto'] span, div[dir='auto']";
  post_text ← read_if text_node (fun h => t ← inner_text h; Returns (Some t));
  link_node ← query_selector a "a[rel~='noopener'], a[rel~='nofollow']";
  post_link_href ← read_if link_node (fun h => get_attribute h "href");
  thumb_node ← query_selector a "img[src][referrerpolicy]";
  post_thumb ← read_if thumb_node (fun h => get_attribute h "src");
  '(likes, comments, shares) ← _parse_engagement a;
  Returns {| facebookUrl := facebook_url; pageId := page_id; postId := post_id;
             pageName := page_name; url := post_url; time := time_str;
             timestamp := Some timestamp; likes := likes; comments := comments;
             shares := shares; text := post_text; link := post_link_href;
             thumb := post_thumb; topLevelUrl := post_url |}.

(** The fallback identifier of [extract_posts]:
    [base = (post.text or "") + (post.url or "")] and
    [str(abs(hash(base)))]. *)
Definition fallback_base (post : FacebookPost) : string :=
  Py.or_empty (text post) +:+ Py.or_empty (url post).

Definition fallback_id (post : FacebookPost) : string :=
  Py.str_of_int (Z.abs (hash (fallback_base post))).

(** The state of one pass: the list [posts] and the set [seen_post_ids]. *)
Definition pass_state : Type := (list FacebookPost * gset string)%type.

(** How the [try] block of the loop body ends: with [continue], or by
    reaching its end (after an admission). *)
Inductive flow : Type := Continue | Fallthrough.

(** Lines 64-69: the post with its identifier settled, or [None] where the
    loop body says [continue] for want of one. *)
Definition resolve_identity (post : FacebookPost) : option FacebookPost :=
  if Py.truthy (postId post) then Some post
  else
    let base := fallback_base post in
    match Py.strip base with
    | EmptyString => None
    | _ => Some (set_postId (fallback_id post) post)
    end.

Definition try_block (a : article) (st : pass_state) : outcome (flow * pass_state) :=
  let '(posts, seen_post_ids) := st in
  post ← _parse_article a;
  match resolve_identity post with
  | None => Returns (Continue, st)
  | Some post =>
      let pid := Py.or_empty (postId post) in
      if bool_decide (pid ∈ seen_post_ids) then Returns (Continue, st)
      else Returns (Fallthrough, (posts ++ [post], {[pid]} ∪ seen_post_ids))
  end.

(** [max_posts is not None and len(posts) >= max_posts] *)
Definition cap_reached (max_posts : option Z) (posts : list FacebookPost) : bool :=
  match max_posts with
  | None => false
  | Some m => m <=? Z.of_nat (length posts)
  end.

(** The [try] statement of the loop body: an exception is logged and the
    body goes on to the cap check with the state as it was. *)
Definition block_step (a : article) (st : pass_state) : flow * pass_state :=
  try_except (try_block a st) (fun _ => (Fallthrough, st)).

Fixpoint extract_loop (articles : list article) (max_posts : option Z) (st : pass_state)
  : pass_state :=
  match articles with
  | [] => st
  | a :: rest =>
      match block_step a st with
      | (Continue, st') => extract_loop rest max_posts st'
      | (Fallthrough, st') =>
          if cap_reached max_posts (fst st') then st'
          else extract_loop rest max_posts st'
      end
  end.

(** Returns the list [posts] together with the final content of the set
    object the pass worked on. *)
Definition extract_posts (pg : page) (seen_post_ids : option (gset string))
           (max_posts : option Z) : outcome pass_state :=
  let seen := match seen_post_ids with Some s => s | None => ∅ end in
  article_handles ← page_query_selector_all pg "div[role='article']";
  Returns (extract_loop article_handles max_posts ([], seen)).

(** *** Predicates used to state the properties of a pass *)

(** What one block does to the state of the pass: nothing, or the
    admission of one record under an identifier that was not seen. *)
Inductive block_effect (st : pass_state) : flow -> pass_state -> Prop :=
| effect_skip (fl : flow) : block_effect st fl st
| effect_append (post : FacebookPost) (pid : string) :
    postId post = Some pid ->
    pid ∉ st.2 ->
    block_effect st Fallthrough (st.1 ++ [post], {[pid]} ∪ st.2).

(** [new] was admitted on top of [seen], giving [seen']: no identifier
    occurs twice in [new], every record has an identifier that is not in
    [seen], and [seen'] is [seen] with exactly these identifiers added. *)
Definition appended (seen : gset string) (new : list FacebookPost)
           (seen' : gset string) : Prop :=
  NoDup (postId <$> new)
  /\ (forall p, p ∈ new -> exists pid, postId p = Some pid /\ (pid ∉ seen))
  /\ (forall pid, pid ∈ seen' <-> pid ∈ seen \/ Some pid ∈ postId <$> new).

End Parser.

(** ** Sessions *)

Section Session.
Context `{Runtime}.

(** Successive passes over one shared set of seen identifiers: each pass
    is a snapshot with its cap, and the set a pass leaves is the set the
    next one receives.  Returns the concatenated result lists. *)
Fixpoint run_passes (passes : list (list article * option Z)) (seen : gset string)
  : list FacebookPost * gset string :=
  match passes with
  | [] => ([], seen)
  | (arts, max_posts) :: rest =>
      match extract_posts (snapshot arts) (Some seen) max_posts with
      | Returns (posts, seen') =>
          let '(more, seen'') := run_passes rest seen' in
          (posts ++ more, seen'')
      | Raises _ => ([], seen)
      end
  end.

(** Why a session ended. *)
Inductive stop_reason : Type := TargetReached | BudgetExhausted | Stalled.

(** Modelled from the spec: the Scroll-Extraction Coordinator
    ([extractors/scroll_manager.py], of which the sources hold only the
    caller in [main.py]).  One call is one iteration of the protocol of
    section 4.3: the scroll and the settle pause leave [feed iteration] as
    the rendered page, the extractor runs on it with the session's set and
    the limit [max_posts - len(results)], the new records are appended,
    and the stop conditions are tried in the spec's order.  [remaining] is
    the number of scrolls the budget [max_scroll] still allows after this
    one; [stalled] counts the consecutive passes without a new record.
    Returns the results, the reason and the number of iterations run. *)
Fixpoint scroll_loop (feed : nat -> page) (max_posts : Z) (stall_threshold : nat)
         (remaining : nat) (iteration : nat) (stalled : nat)
         (results : list FacebookPost) (seen : gset string)
  : outcome (list FacebookPost * stop_reason * nat) :=
  '(new, seen) ← extract_posts (feed iteration) (Some seen)
                               (Some (max_posts - Z.of_nat (length results)));
  let results := results ++ new in
  let stalled := match new with [] => S stalled | _ => 0%nat end in
  if max_posts <=? Z.of_nat (length results)
  then Returns (results, TargetReached, iteration)
  else match remaining with
       | O => Returns (results, BudgetExhausted, iteration)
       | S remaining' =>
           if (stall_threshold <=? stalled)%nat
           then Returns (results, Stalled, iteration)
           else scroll_loop feed max_posts stall_threshold remaining'
                            (S iteration) stalled results seen
       end.

(** Modelled from the spec: [run(query, extractor, maxPosts)] of section
    4.3, called [scrape_search] in [main.py]; [feed n] is the page the
    browser shows for the query after the [n]-th scroll. *)
Definition scrape_search (feed : nat -> page) (max_scroll stall_threshold : nat)
           (max_posts : Z) : outcome (list FacebookPost * stop_reason * nat) :=
  scroll_loop feed max_posts stall_threshold (Nat.pred max_scroll) 1 0 [] ∅.

End Session.

(** ** Sample blocks *)

Module Sample.

Definition dq : string := String (ascii_of_nat 34) EmptyString.

(** The JSON text of an object with one string member. *)
Definition blob (key value : string) : string :=
  "{" +:+ dq +:+ key +:+ dq +:+ ": " +:+ dq +:+ value +:+ dq +:+ "}".

(** A stand-in for the interpreter: a polynomial string hash, and a decoder
    that knows the two metadata blobs of the samples and rejects the rest. *)
Fixpoint poly_hash (acc : Z) (s : string) : Z :=
  match s with
  | EmptyString => acc
  | String c r => poly_hash (31 * acc + Py.code c) r
  end.

Definition runtime : Runtime := {|
  hash := fun s => (poly_hash 7 s + 2 ^ 62) mod 2 ^ 64 - 2 ^ 63;
  json_loads := fun raw =>
    if String.eqb raw (blob "top_level_post_id" "abc123")
    then Returns (PDict {[ "top_level_post_id" := PStr "abc123" ]})
    else if String.eqb raw (blob "mf_story_key" "k9")
    then Returns (PDict {[ "mf_story_key" := PStr "k9" ]})
    else Raises ValueError
|}.

(** A handle with the given attributes and inner text. *)
Definition node (attrs : list (string * string)) (txt : string) : handle := {|
  get_attribute := fun name =>
    Returns (snd <$> List.find (fun kv => String.eqb (fst kv) name) attrs);
  inner_text := Returns txt
|}.

(** A handle every read of which fails. *)
Definition detached : handle := {|
  get_attribute := fun _ => Raises AutomationError;
  inner_text := Raises AutomationError
|}.

(** A block with optional metadata, permalink, body text and time node. *)
Definition block (data_ft : option string) (href body : option string)
           (time_node : option handle) (now : Z) : article := {|
  self := node (match data_ft with Some d => [("data-ft", d)] | None => [] end) "";
  query_selector := fun sel =>
    if String.eqb sel "a[href*='/posts/'], a[href*='pfbid']"
    then Returns ((fun h => node [("href", h)] "") <$> href)
    else if String.eqb sel "div[dir='auto'] span, div[dir='auto']"
    then Returns (node [] <$> body)
    else if String.eqb sel "a[aria-label*=' at '], a[role='link'] time"
    then Returns time_node
    else Returns None;
  query_selector_all := fun _ => Returns [];
  time_time := now
|}.

(** A block whose metadata attribute cannot be read. *)
Definition broken : article := {|
  self := detached;
  query_selector := fun _ => Raises AutomationError;
  query_selector_all := fun _ => Raises AutomationError;
  time_time := 1700000000
|}.

Definition tagged : article :=
  block (Some (blob "top_level_post_id" "abc123")) None None None 1700000000.

Definition hello : article :=
  block None (Some "https://www.facebook.com/p/posts/1") (Some "hello") None 1700000000.

Definition blank : article := block None None None None 1700000000.

Definition ab_c : article := block None (Some "c") (Some "ab") None 1700000000.
Definition a_bc : article := block None (Some "bc") (Some "a") None 1700000000.

Definition epoch (utime : string) : article :=
  block None None (Some "x") (Some (node [("data-utime", utime)] "1h")) 1700000000.

(** A feed that shows the same single block after every scroll, and the
    state of a session after its first pass over it. *)
Definition still_feed : nat -> page := fun _ => snapshot [hello].

Definition first_pass : list FacebookPost * gset string :=
  @extract_loop runtime [hello] None ([], ∅).

(** A record with the given text, URL and like count and nothing else. *)
Definition bare (t u : option string) (n : option Z) : FacebookPost :=
  {| facebookUrl := None; pageId := None; postId := None; pageName := None;
     url := u; time := None; timestamp := None; likes := n; comments := None;
     shares := None; text := t; link := None; thumb := None;
     topLevelUrl := u |}.

End Sample.


(** ** Notions used to state further properties *)

(** A float that is zero, finite or infinite with the sign bit clear. *)
Definition nonneg_float (x : spec_float) : bool :=
  match x with
  | S754_zero false | S754_infinity false | S754_finite false _ _ => true
  | _ => false
  end.

(** A node the loop of [_parse_engagement] passes over: its text cannot be
    read, or holds none of the three keywords. *)
Definition passed_over (node : handle) : bool :=
  match inner_text node with
  | Raises _ => true
  | Returns t =>
      let lower := Py.lower (Py.strip t) in
      negb (Py.contains "like" lower) && negb (Py.contains "comment" lower)
      && negb (Py.contains "share" lower)
  end.

(** [str(value) if value is not None else None] *)
Definition str_or_none (value : pyval) : option string :=
  match value with
  | PNone => None
  | _ => Some (py_str value)
  end.



(** A node that gives the like count a value: a label with "like" in it
    whose number the count parser finds. *)
Definition sets_likes (node : handle) : bool :=
  match inner_text node with
  | Raises _ => false
  | Returns t =>
      Py.contains "like" (Py.lower (Py.strip t))
      && match _parse_engagement_number (Py.strip t) with
         | Returns (Some _) => true
         | _ => false
         end
  end.

(** The block [a] with [raw] for the outcome of reading its metadata
    attribute. *)
Definition with_data_ft (a : article) (raw : outcome (option string)) : article := {|
  self := {| get_attribute := fun name =>
               if String.eqb name "data-ft" then raw else get_attribute (self a) name;
             inner_text := inner_text (self a) |};
  query_selector := query_selector a;
  query_selector_all := query_selector_all a;
  time_time := time_time a
|}.

(** The body of [_parse_engagement_number] once the multiplier is chosen. *)
Definition count_scaled (text : string) (multiplier : Z) : outcome (option Z) :=
  match search_count_run text with
  | None => Returns None
  | Some g1 =>
      match Py.float_of_str (Py.remove_commas g1) with
      | Raises _ => Returns None
      | Returns value =>
          v ← Py.int_of_float (Py.float_mul value (Py.float_of_int multiplier));
          Returns (Some v)
      end
  end.

(** The block [a] with [tn] for the outcome of its time-node query. *)
Definition with_time_node (a : article) (tn : outcome (option handle)) : article := {|
  self := self a;
  query_selector := fun sel =>
    if String.eqb sel "a[aria-label*=' at '], a[role='link'] time"
    then tn else query_selector a sel;
  query_selector_all := query_selector_all a;
  time_time := time_time a
|}.

(** The record [p] is what the loop body makes of the block [a]: the parsed
    record with its identifier settled. *)
Definition from_block `{Runtime} (a : article) (p : FacebookPost) : Prop :=
  exists post, _parse_article a = Returns post /\ resolve_identity post = Some p.

(** ** The headless switch of [main.py] *)

(** [main], lines 161-170: what the two flags ask for. *)
Definition force_headless_of_args (headless no_headless : bool) : option bool :=
  if headless && no_headless then None
  else if headless then Some true
  else if no_headless then Some false
  else None.

(** [run_scraper], lines 115-121: the flags before the configuration. *)
Definition effective_headless (force_headless : option bool) (headless_config : bool)
  : bool :=
  match force_headless with
  | Some true => true
  | Some false => false
  | None => headless_config
  end.

(** ** Further sample blocks and labels *)

Module Cases.

Definition likes_label : handle := Sample.node [] " 12 Likes ".
Definition k_likes_label : handle := Sample.node [] "2.4K likes".
Definition comments_label : handle := Sample.node [] "3 comments".
Definition bare_like_label : handle := Sample.node [] "Like".
Definition plain_label : handle := Sample.node [] "hello".
Definition huge_label : handle :=
  Sample.node [] (Py.str_of_int (10 ^ 400) +:+ " shares").

(** The block [a] with [nodes] for its count labels. *)
Definition with_labels (a : article) (nodes : list handle) : article := {|
  self := self a;
  query_selector := query_selector a;
  query_selector_all := fun _ => Returns nodes;
  time_time := time_time a
|}.

Definition metadata : gmap string pyval :=
  {[ "mf_story_key" := PStr "k9"; "page_id" := PNone ]}.

Definition three : list article := [Sample.hello; Sample.tagged; Sample.ab_c].

(** The state a pass over [arts] ends in. *)
Definition pass (arts : list article) (seen : gset string) (m : option Z)
  : list FacebookPost * gset string :=
  @extract_loop Sample.runtime arts m ([], seen).

(** What the parser makes of [Sample.tagged]. *)
Definition tagged_post : FacebookPost :=
  {| facebookUrl := None; pageId := None; postId := Some "abc123"; pageName := None;
     url := None; time := None; timestamp := Some 1700000000; likes := None;
     comments := None; shares := None; text := None; link := None; thumb := None;
     topLevelUrl := None |}.

(** Metadata with a null, and with an empty string, under the first key,
    and a decoder that knows them besides the blobs of [Sample.runtime]. *)
Definition null_blob : string :=
  "{" +:+ Sample.dq +:+ "top_level_post_id" +:+ Sample.dq +:+ ": null, "
  +:+ Sample.dq +:+ "mf_story_key" +:+ Sample.dq +:+ ": "
  +:+ Sample.dq +:+ "k9" +:+ Sample.dq +:+ "}".

Definition empty_blob : string :=
  "{" +:+ Sample.dq +:+ "top_level_post_id" +:+ Sample.dq +:+ ": "
  +:+ Sample.dq +:+ Sample.dq +:+ ", "
  +:+ Sample.dq +:+ "mf_story_key" +:+ Sample.dq +:+ ": "
  +:+ Sample.dq +:+ "k9" +:+ Sample.dq +:+ "}".

Definition null_dict : gmap string pyval :=
  {[ "top_level_post_id" := PNone; "mf_story_key" := PStr "k9" ]}.

Definition empty_dict : gmap string pyval :=
  {[ "top_level_post_id" := PStr ""; "mf_story_key" := PStr "k9" ]}.

Definition runtime : Runtime := {|
  hash := @hash Sample.runtime;
  json_loads := fun raw =>
    if String.eqb raw null_blob then Returns (PDict null_dict)
    else if String.eqb raw empty_blob then Returns (PDict empty_dict)
    else @json_loads Sample.runtime raw
|}.

Definition null_keyed : article :=
  Sample.block (Some null_blob) (Some "u") (Some "hello") None 1700000000.

Definition empty_keyed : article :=
  Sample.block (Some empty_blob) (Some "v") (Some "hello") None 1700000000.

End Cases.

(** * Properties *)

(** ** The count parser *)

(** The group of the match holds nothing but digits, points and commas, so
    [float_of_str] is only ever applied inside its domain. *)
Lemma take_count_chars_class (s : string) :
  Py.all_chars is_count_char (take_count_chars s) = true.
Proof.
  induction s as [|c r IH]; simpl; [reflexivity|].
  destruct (is_count_char c) eqn:E; simpl; [|reflexivity].
  now rewrite E.
Qed.

Lemma search_count_run_class (t g1 : string) :
  search_count_run t = Some g1 -> Py.all_chars is_count_char g1 = true.
Proof.
  induction t as [|c r IH]; simpl; [discriminate|].
  destruct (is_count_char c) eqn:E; [|exact IH].
  intros [= <-]. simpl. rewrite E. simpl. apply take_count_chars_class.
Qed.

(** A text without a character of the class has no count. *)
Lemma _parse_engagement_number_no_run (t : string) :
  search_count_run t = None -> _parse_engagement_number t = Returns None.
Proof. unfold _parse_engagement_number. now intros ->. Qed.

(** C1. The parser on the four examples of the specification: "2.4K" gives
    2400, "1,234" gives 1234 and "no data" gives no count, but
    "15 Comments" gives 15000000 and not 15: the scale is chosen by a
    search for [Kk], then [Mm], over the whole text, and "Comments" holds
    an "m". *)
Theorem parse_engagement_number_examples :
  _parse_engagement_number "2.4K" = Returns (Some 2400)
  /\ _parse_engagement_number "1,234" = Returns (Some 1234)
  /\ _parse_engagement_number "no data" = Returns None
  /\ _parse_engagement_number "15 Comments" = Returns (Some 15000000)
  /\ _parse_engagement_number "15 Comments" <> Returns (Some 15).
Proof. repeat split; try (vm_compute; reflexivity). vm_compute. discriminate. Qed.

(** The same search makes every "like" label a thousandfold. *)
Example parse_engagement_number_likes :
  _parse_engagement_number "12 likes" = Returns (Some 12000).
Proof. vm_compute. reflexivity. Qed.

(** ** One pass of [extract_posts] *)

Section Properties.
Context `{Runtime}.

Lemma extract_loop_cons (a : article) (rest : list article) (max_posts : option Z)
      (st : pass_state) :
  extract_loop (a :: rest) max_posts st =
  match block_step a st with
  | (Continue, st') => extract_loop rest max_posts st'
  | (Fallthrough, st') =>
      if cap_reached max_posts (fst st') then st'
      else extract_loop rest max_posts st'
  end.
Proof. reflexivity. Qed.

Lemma resolve_identity_postId (post post' : FacebookPost) :
  resolve_identity post = Some post' ->
  exists pid, postId post' = Some pid /\ Py.or_empty (postId post') = pid.
Proof.
  unfold resolve_identity.
  destruct (Py.truthy (postId post)) eqn:E.
  - intros [= <-]. destruct (postId post) as [pid|]; [|discriminate]. now exists pid.
  - destruct (Py.strip _); [discriminate|]. intros [= <-]. simpl. eauto.
Qed.

Lemma block_step_effect (a : article) (st : pass_state) :
  block_effect st (block_step a st).1 (block_step a st).2.
Proof.
  unfold block_step, try_block. destruct st as [posts seen].
  destruct (_parse_article a) as [post|e]; simpl; [|constructor].
  destruct (resolve_identity post) as [post'|] eqn:R; simpl; [|constructor].
  destruct (resolve_identity_postId _ _ R) as (pid & Hid & ->).
  case_bool_decide; simpl; [constructor|].
  now apply (effect_append (posts, seen) post' pid).
Qed.

Lemma appended_nil (seen : gset string) : appended seen [] seen.
Proof.
  repeat split; simpl.
  - constructor.
  - intros p Hp. inversion Hp.
  - tauto.
  - intros [?|Hin]; [done|inversion Hin].
Qed.

Lemma appended_one (seen : gset string) (post : FacebookPost) (pid : string) :
  postId post = Some pid -> pid ∉ seen -> appended seen [post] ({[pid]} ∪ seen).
Proof.
  intros Hid Hnew. repeat split; simpl.
  - apply NoDup_singleton.
  - intros p ->%list_elem_of_singleton. eauto.
  - rewrite Hid. intros [->%elem_of_singleton|?]%elem_of_union; [right|by left].
    by apply list_elem_of_singleton.
  - rewrite Hid. intros [?|[= ->]%list_elem_of_singleton]; set_solver.
Qed.

Lemma appended_app (s0 s1 s2 : gset string) (n1 n2 : list FacebookPost) :
  appended s0 n1 s1 -> appended s1 n2 s2 -> appended s0 (n1 ++ n2) s2.
Proof.
  intros (Hd1 & Hf1 & Hs1) (Hd2 & Hf2 & Hs2). repeat split.
  - rewrite fmap_app. apply NoDup_app. split; [done|]. split; [|done].
    intros o Ho1 Ho2.
    apply list_elem_of_fmap in Ho2 as (p & -> & Hp).
    destruct (Hf2 p Hp) as (pid & Hpid & Hfresh).
    apply Hfresh, Hs1. right. by rewrite <- Hpid.
  - intros p [Hp|Hp]%elem_of_app; [by apply Hf1|].
    destruct (Hf2 p Hp) as (pid & Hpid & Hfresh). exists pid. split; [done|].
    intros Hin. apply Hfresh, Hs1. by left.
  - rewrite fmap_app. intros [Hin|Hin]%Hs2.
    + apply Hs1 in Hin as [?|?]; [by left|right]. apply elem_of_app. by left.
    + right. apply elem_of_app. by right.
  - rewrite fmap_app. intros [Hin|[Hin|Hin]%elem_of_app]; apply Hs2.
    + left. apply Hs1. by left.
    + left. apply Hs1. by right.
    + by right.
Qed.

(** The invariant of the loop: the pass only appends to [posts], and what
    it appends was admitted on top of the set it started from. *)
Lemma extract_loop_appends (arts : list article) (max_posts : option Z)
      (posts : list FacebookPost) (seen : gset string) :
  exists new,
    (extract_loop arts max_posts (posts, seen)).1 = posts ++ new
    /\ appended seen new (extract_loop arts max_posts (posts, seen)).2.
Proof.
  revert posts seen. induction arts as [|a rest IH]; intros posts seen.
  - exists []. simpl. rewrite app_nil_r. split; [done|apply appended_nil].
  - rewrite extract_loop_cons.
    pose proof (block_step_effect a (posts, seen)) as E.
    destruct (block_step a (posts, seen)) as [fl st']. simpl in E.
    inversion E as [fl' Hfl Hst|post pid Hid Hnew Hfl Hst]; subst; simpl in *.
    + destruct fl; [apply IH|].
      destruct (cap_reached max_posts posts); [|apply IH].
      exists []. simpl. rewrite app_nil_r. split; [done|apply appended_nil].
    + destruct (cap_reached max_posts (posts ++ [post])).
      * exists [post]. split; [done|]. by apply appended_one.
      * destruct (IH (posts ++ [post]) ({[pid]} ∪ seen)) as (new & Hp & Ha).
        exists (post :: new). split.
        -- rewrite Hp. by rewrite <- app_assoc.
        -- apply (appended_app seen ({[pid]} ∪ seen) _ [post] new);
             [by apply appended_one|done].
Qed.

(** The cap: a pass that starts below a cap ends at most at the cap. *)
Lemma extract_loop_length (arts : list article) (m : Z)
      (posts : list FacebookPost) (seen : gset string) :
  Z.of_nat (length posts) < m ->
  Z.of_nat (length (extract_loop arts (Some m) (posts, seen)).1) <= m.
Proof.
  revert posts seen. induction arts as [|a rest IH]; intros posts seen Hlt.
  - simpl. lia.
  - rewrite extract_loop_cons.
    pose proof (block_step_effect a (posts, seen)) as E.
    destruct (block_step a (posts, seen)) as [fl st']. simpl in E.
    inversion E as [fl' Hfl Hst|post pid Hid Hnew Hfl Hst]; subst; simpl in *.
    + destruct fl; [by apply IH|].
      destruct (m <=? Z.of_nat (length posts)) eqn:C; [simpl; lia|by apply IH].
    + destruct (m <=? Z.of_nat (length (posts ++ [post]))) eqn:C.
      * simpl. rewrite length_app in *. simpl in *. lia.
      * apply IH. lia.
Qed.

(** With a cap of at least one, a pass returns at most that many records. *)
Lemma extract_posts_at_most (arts : list article) (seen : gset string) (m : Z)
      (posts : list FacebookPost) (seen' : gset string) :
  1 <= m ->
  extract_posts (snapshot arts) (Some seen) (Some m) = Returns (posts, seen') ->
  Z.of_nat (length posts) <= m.
Proof.
  intros Hm [= E]. 
  pose proof (extract_loop_length arts m [] seen) as L. simpl in L.
  rewrite E in L. simpl in L. lia.
Qed.

End Properties.

(** C2. With a cap of zero the pass still admits a record: the cap is only
    looked at after a block has been dealt with, so the first admissible
    block of the snapshot is returned, and the pass stops after it. *)
Theorem extract_posts_cap_zero :
  exists post seen',
    @extract_posts Sample.runtime (snapshot [Sample.tagged; Sample.hello])
                   (Some ∅) (Some 0) = Returns ([post], seen')
    /\ postId post = Some "abc123".
Proof. eexists _, _. split; vm_compute; reflexivity. Qed.

Section Dedup.
Context `{Runtime}.

Lemma run_passes_appends (passes : list (list article * option Z))
      (seen : gset string) :
  appended seen (run_passes passes seen).1 (run_passes passes seen).2.
Proof.
  revert seen. induction passes as [|[arts m] rest IH]; intros seen; simpl.
  - apply appended_nil.
  - destruct (extract_loop_appends arts m [] seen) as (new & Hp & Ha).
    destruct (extract_loop arts m ([], seen)) as [posts seen'] eqn:E.
    simpl in *. subst posts.
    specialize (IH seen').
    destruct (run_passes rest seen') as [more seen'']. simpl in *.
    by apply (appended_app seen seen').
Qed.

(** C3. Over any sequence of passes that share one set of seen
    identifiers, the concatenated results hold no identifier twice; every
    record in them has an identifier, which was not in the set the
    session started with and is in the set it ends with. *)
Theorem run_passes_unique (passes : list (list article * option Z))
        (seen : gset string) :
  let '(results, seen') := run_passes passes seen in
  NoDup (postId <$> results)
  /\ (forall p, p ∈ results ->
        exists pid, postId p = Some pid /\ (pid ∉ seen) /\ (pid ∈ seen'))
  /\ seen ⊆ seen'.
Proof.
  pose proof (run_passes_appends passes seen) as (Hd & Hf & Hs).
  destruct (run_passes passes seen) as [results seen']. simpl in *.
  split; [done|]. split.
  - intros p Hp. destruct (Hf p Hp) as (pid & Hid & Hfresh).
    exists pid. repeat split; [done..|].
    apply Hs. right. rewrite <- Hid. by apply list_elem_of_fmap_2.
  - intros pid Hin. apply Hs. by left.
Qed.

End Dedup.

(** ** What [_parse_article] puts in the record *)

Section Article.
Context `{Runtime}.

(** The identifier and the timestamp of a parsed block, in terms of the
    reads they come from. *)
Lemma _parse_article_inv (a : article) (post : FacebookPost) :
  _parse_article a = Returns post ->
  exists data_ft_raw time_node,
    get_attribute (self a) "data-ft" = Returns data_ft_raw
    /\ query_selector a "a[aria-label*=' at '], a[role='link'] time" = Returns time_node
    /\ postId post =
       _safe_get_nested (load_data_ft data_ft_raw) ["top_level_post_id"; "mf_story_key"]
    /\ time post = (resolve_time time_node).1
    /\ timestamp post =
       Some (default_timestamp (resolve_time time_node).2 (time_time a)).
Proof.
  unfold _parse_article. intros E.
  repeat match type of E with
         | context [mbind _ ?m] =>
             let r := fresh "r" in
             destruct m as [r|] eqn:?; cbn [mbind outcome_bind] in E; [|discriminate]
         | context [resolve_time ?t] =>
             let ts := fresh "ts" in
             destruct (resolve_time t) as [? ts] eqn:?
         end.
  match goal with c : counts |- _ => destruct c as [[? ?] ?] end.
  injection E as <-. do 2 eexists.
  split; [reflexivity|]. split; [reflexivity|]. simpl.
  match goal with Ht : resolve_time _ = _ |- _ => rewrite Ht end. done.
Qed.

(** A time node whose [data-utime] is a run of decimal digits resolves to
    the number the digits spell. *)
Lemma resolve_time_digits (tn : handle) (s : string) :
  get_attribute tn "data-utime" = Returns (Some s) ->
  s <> EmptyString ->
  Py.all_chars Py.is_decimal s = true ->
  (String.length s <= Py.int_max_str_digits)%nat ->
  (resolve_time (Some tn)).2 = Some (Py.digits_value 0 s).
Proof.
  intros Hattr Hne Hdig Hlen. apply Nat.leb_le in Hlen.
  unfold resolve_time. simpl. rewrite Hattr. simpl.
  assert (Py.isdigit s = true) as ->.
  { destruct s as [|c r]; [done|]. unfold Py.isdigit.
    revert Hdig. generalize (String c r). clear. intros s.
    induction s as [|c r IH]; simpl; [done|].
    unfold Py.char_isdigit. intros [-> ?]%andb_prop. simpl. auto. }
  unfold Py.int_of_str. rewrite Hdig, Hlen.
  destruct s; [done|]. simpl. done.
Qed.

(** The default replaces a missing timestamp and a timestamp of zero, and
    nothing else. *)
Lemma default_timestamp_cases (ts : option Z) (now : Z) :
  default_timestamp ts now =
  match ts with
  | Some n => if decide (n = 0) then now else n
  | None => now
  end.
Proof.
  destruct ts as [n|]; simpl; [|done].
  case_decide; subst; simpl; [done|]. destruct (n =? 0) eqn:E; [lia|done].
Qed.

(** For digits within the interpreter's limit that spell a number other
    than zero, the record carries that number. *)
Lemma _parse_article_timestamp (a : article) (post : FacebookPost)
      (tn : handle) (s : string) :
  _parse_article a = Returns post ->
  query_selector a "a[aria-label*=' at '], a[role='link'] time" = Returns (Some tn) ->
  get_attribute tn "data-utime" = Returns (Some s) ->
  s <> EmptyString ->
  Py.all_chars Py.is_decimal s = true ->
  (String.length s <= Py.int_max_str_digits)%nat ->
  Py.digits_value 0 s <> 0 ->
  timestamp post = Some (Py.digits_value 0 s).
Proof.
  intros Hp Hq Hattr Hne Hdig Hlen Hnz.
  destruct (_parse_article_inv a post Hp) as (raw & tnode & _ & Hq' & _ & _ & ->).
  rewrite Hq in Hq'. injection Hq' as <-.
  rewrite (resolve_time_digits tn s Hattr Hne Hdig Hlen), default_timestamp_cases.
  by case_decide.
Qed.

End Article.

(** C4. A time node whose [data-utime] is "0" does not give the record the
    timestamp 0: the digits are read as 0, and the default that follows
    takes 0 for a missing timestamp and puts the extraction time in its
    place. *)
Theorem parse_article_epoch_zero :
  exists post,
    @_parse_article Sample.runtime (Sample.epoch "0") = Returns post
    /\ timestamp post = Some (time_time (Sample.epoch "0"))
    /\ timestamp post <> Some 0.
Proof. eexists. split; [vm_compute; reflexivity|]. split; [reflexivity|discriminate]. Qed.

(** Other digits are kept. *)
Example parse_article_epoch_1234 :
  match @_parse_article Sample.runtime (Sample.epoch "1234") with
  | Returns post => timestamp post
  | Raises _ => None
  end = Some 1234.
Proof. vm_compute. reflexivity. Qed.

(** More digits than the interpreter reads make [int] fail, and the clock
    stands in: here a 1 followed by 4300 zeros. *)
Example parse_article_epoch_too_long :
  match @_parse_article Sample.runtime (Sample.epoch (Py.str_of_int (10 ^ 4300))) with
  | Returns post => timestamp post
  | Raises _ => None
  end = Some 1700000000.
Proof. vm_compute. reflexivity. Qed.

Section Identity.
Context `{Runtime}.

Lemma load_data_ft_decoded (raw : string) (data : pydata) :
  raw <> EmptyString -> json_loads raw = Returns data ->
  load_data_ft (Some raw) = data.
Proof.
  intros Hne Hj. unfold load_data_ft. destruct raw; [done|]. simpl in *.
  by rewrite Hj.
Qed.

(** The priority of the two metadata keys. *)
Lemma _safe_get_nested_first (d : gmap string pyval) (k1 k2 : string) (v : pyval) :
  d !! k1 = Some v ->
  _safe_get_nested (PDict d) [k1; k2] =
  match v with PNone => None | _ => Some (py_str v) end.
Proof. intros Hk. simpl. rewrite Hk. by destruct v. Qed.

Lemma _safe_get_nested_second (d : gmap string pyval) (k1 k2 : string) (v : pyval) :
  d !! k1 = None -> d !! k2 = Some v ->
  _safe_get_nested (PDict d) [k1; k2] =
  match v with PNone => None | _ => Some (py_str v) end.
Proof. intros Hk1 Hk2. simpl. rewrite Hk1, Hk2. by destruct v. Qed.

(** A block that parses to a record with an identifier of its own is
    admitted as it is when the identifier has not been seen. *)
Lemma extract_posts_identified (a : article) (post : FacebookPost) (pid : string)
      (seen : gset string) (max_posts : option Z) :
  _parse_article a = Returns post ->
  postId post = Some pid -> pid <> EmptyString -> pid ∉ seen ->
  extract_posts (snapshot [a]) (Some seen) max_posts
  = Returns ([post], {[pid]} ∪ seen).
Proof.
  intros Hp Hid Hne Hnew. unfold extract_posts. simpl.
  unfold block_step, try_block. rewrite Hp. simpl.
  unfold resolve_identity. rewrite Hid.
  destruct pid; [done|]. simpl. rewrite Hid. simpl.
  rewrite bool_decide_eq_false_2 by done. simpl.
  by destruct (cap_reached _ _).
Qed.

(** A block without an identifier of its own and with something in its
    text or URL is admitted under the synthesized identifier when that has
    not been seen. *)
Lemma extract_posts_synthesized (a : article) (post : FacebookPost)
      (seen : gset string) (max_posts : option Z) :
  _parse_article a = Returns post ->
  Py.truthy (postId post) = false ->
  Py.strip (fallback_base post) <> EmptyString ->
  fallback_id post ∉ seen ->
  extract_posts (snapshot [a]) (Some seen) max_posts
  = Returns ([set_postId (fallback_id post) post], {[fallback_id post]} ∪ seen).
Proof.
  intros Hp Hid Hb Hnew. unfold extract_posts. simpl.
  unfold block_step, try_block. rewrite Hp. simpl.
  unfold resolve_identity. rewrite Hid.
  destruct (Py.strip (fallback_base post)); [done|]. simpl.
  rewrite bool_decide_eq_false_2 by done. simpl.
  by destruct (cap_reached _ _).
Qed.

(** What the two keys give, by the presence of the keys. *)
Lemma _safe_get_nested_keys (d : gmap string pyval) (k1 k2 : string) :
  _safe_get_nested (PDict d) [k1; k2] =
  match d !! k1 with
  | Some v => str_or_none v
  | None => match d !! k2 with
            | Some v => str_or_none v
            | None => None
            end
  end.
Proof.
  simpl. destruct (d !! k1) as [v|]; [by destruct v|].
  destruct (d !! k2) as [v|]; [by destruct v|done].
Qed.

(** C5. The identifier comes from the decoded metadata by the presence of
    the keys: when [top_level_post_id] is there, the record carries [str]
    of its value, the value itself for a string, and no identifier at all
    for a null, without a look at [mf_story_key]; only when the key is
    absent does the value under [mf_story_key] serve, in the same way.  A
    block is admitted under an identifier from the metadata that is not
    empty and has not been seen; with none, or an empty one, it is admitted
    under the synthesized one. *)
Theorem post_id_from_metadata (a : article) (raw : string) (d : gmap string pyval)
        (post : FacebookPost) (seen : gset string) (max_posts : option Z) :
  get_attribute (self a) "data-ft" = Returns (Some raw) ->
  raw <> EmptyString ->
  json_loads raw = Returns (PDict d) ->
  _parse_article a = Returns post ->
  postId post =
  match d !! "top_level_post_id" with
  | Some v => str_or_none v
  | None => match d !! "mf_story_key" with
            | Some v => str_or_none v
            | None => None
            end
  end
  /\ (forall s, postId post = Some s -> s <> EmptyString -> s ∉ seen ->
        extract_posts (snapshot [a]) (Some seen) max_posts
        = Returns ([post], {[s]} ∪ seen))
  /\ (Py.truthy (postId post) = false ->
      Py.strip (fallback_base post) <> EmptyString ->
      fallback_id post ∉ seen ->
      extract_posts (snapshot [a]) (Some seen) max_posts
      = Returns ([set_postId (fallback_id post) post], {[fallback_id post]} ∪ seen)).
Proof.
  intros Hattr Hne Hj Hp. split; [|split].
  - destruct (_parse_article_inv a post Hp) as (raw' & tn & Hattr' & _ & -> & _).
    rewrite Hattr in Hattr'. injection Hattr' as <-.
    rewrite (load_data_ft_decoded raw (PDict d) Hne Hj).
    apply _safe_get_nested_keys.
  - intros s Hid Hs Hnew. by apply extract_posts_identified.
  - intros Hf Hb Hnew. by apply extract_posts_synthesized.
Qed.

(** A block that the [try] block passes over leaves no trace in a pass. *)
Lemma extract_loop_skip (a : article) (pre rest : list article)
      (max_posts : option Z) (st : pass_state) :
  (forall st', block_step a st' = (Continue, st')) ->
  extract_loop (pre ++ a :: rest) max_posts st
  = extract_loop (pre ++ rest) max_posts st.
Proof.
  intros Ha. revert st. induction pre as [|b pre IH]; intros st.
  - simpl app. rewrite extract_loop_cons, Ha. done.
  - simpl app. rewrite !extract_loop_cons.
    destruct (block_step b st) as [[] st']; [apply IH|].
    destruct (cap_reached max_posts st'.1); [done|apply IH].
Qed.

(** C6. A block that parses to a record without an identifier from the
    metadata, with empty text and with an empty URL is not admitted: a
    pass over it alone returns nothing and leaves the set as it was, and
    anywhere in a snapshot the pass is the pass without it. *)
Theorem unidentifiable_block_discarded (a : article) (post : FacebookPost)
        (pre rest : list article) (seen : gset string) (max_posts : option Z) :
  _parse_article a = Returns post ->
  Py.truthy (postId post) = false ->
  Py.or_empty (text post) = EmptyString ->
  Py.or_empty (url post) = EmptyString ->
  extract_posts (snapshot [a]) (Some seen) max_posts = Returns ([], seen)
  /\ extract_posts (snapshot (pre ++ a :: rest)) (Some seen) max_posts
     = extract_posts (snapshot (pre ++ rest)) (Some seen) max_posts.
Proof.
  intros Hp Hid Ht Hu.
  assert (forall st', block_step a st' = (Continue, st')) as Hskip.
  { intros [posts seen']. unfold block_step, try_block. rewrite Hp. simpl.
    unfold resolve_identity, fallback_base. rewrite Hid, Ht, Hu. done. }
  split.
  - unfold extract_posts. simpl. by rewrite Hskip.
  - unfold extract_posts. simpl. f_equal. by apply extract_loop_skip.
Qed.

(** The synthesized identifier is a function of the concatenation. *)
Lemma resolve_identity_base (p1 p2 : FacebookPost) :
  Py.truthy (postId p1) = false ->
  Py.truthy (postId p2) = false ->
  fallback_base p1 = fallback_base p2 ->
  postId <$> resolve_identity p1 = postId <$> resolve_identity p2.
Proof.
  intros H1 H2 Hb. unfold resolve_identity, fallback_id. rewrite H1, H2, Hb.
  by destruct (Py.strip (fallback_base p2)).
Qed.

(** C7. The synthesis step gives two records with the same text and the
    same URL the same identifier, whatever else they hold: the decimal
    rendering of the absolute value of the hash of text followed by URL
    when that is not blank, and none when it is. *)
Theorem identity_synthesis_deterministic (p1 p2 : FacebookPost) :
  Py.truthy (postId p1) = false ->
  Py.truthy (postId p2) = false ->
  text p1 = text p2 ->
  url p1 = url p2 ->
  postId <$> resolve_identity p1 = postId <$> resolve_identity p2
  /\ (Py.strip (Py.or_empty (text p1) +:+ Py.or_empty (url p1)) <> EmptyString ->
      postId <$> resolve_identity p1
      = Some (Some (Py.str_of_int
                      (Z.abs (hash (Py.or_empty (text p1) +:+ Py.or_empty (url p1))))))).
Proof.
  intros H1 H2 Ht Hu. split.
  - apply resolve_identity_base; [done..|]. unfold fallback_base. by rewrite Ht, Hu.
  - intros Hb. unfold resolve_identity, fallback_id, fallback_base in *.
    rewrite H1. by destruct (Py.strip _).
Qed.

(** Before any record is admitted the cap is reached only if it is not
    positive, and a block that goes to [continue] changes nothing. *)
Lemma block_step_continue (a : article) (st st' : pass_state) :
  block_step a st = (Continue, st') -> st' = st.
Proof.
  intros E. pose proof (block_step_effect a st) as B. rewrite E in B.
  simpl in B. by inversion B.
Qed.

Lemma extract_loop_failed_block (a : article) (e : exn) (pre rest : list article)
      (max_posts : option Z) (st : pass_state) :
  _parse_article a = Raises e ->
  cap_reached max_posts st.1 = false ->
  extract_loop (pre ++ a :: rest) max_posts st
  = extract_loop (pre ++ rest) max_posts st.
Proof.
  intros Ha. revert st. induction pre as [|b pre IH]; intros st Hcap.
  - simpl app. rewrite extract_loop_cons.
    unfold block_step, try_block. destruct st as [posts seen].
    rewrite Ha. simpl in *. by rewrite Hcap.
  - simpl app. rewrite !extract_loop_cons.
    destruct (block_step b st) as [[] st'] eqn:E.
    + apply block_step_continue in E as ->. by apply IH.
    + destruct (cap_reached max_posts st'.1) eqn:C; [done|by apply IH].
Qed.

(** C8. A block whose parse raises is passed over and nothing else.  The
    error never leaves the pass, under any cap; the loop goes from the
    failed block to the cap test with its state unchanged.  When the cap is
    not reached before any record is admitted (no cap, or a cap of at least
    one), the pass is the pass over the other blocks, and a block after the
    failed one that parses to a record with an unseen identifier of its own
    is returned. *)
Theorem block_failure_is_local (a b : article) (e : exn) (pre rest : list article)
        (post : FacebookPost) (pid : string) (seen : gset string)
        (max_posts : option Z) :
  _parse_article a = Raises e ->
  cap_reached max_posts [] = false ->
  _parse_article b = Returns post ->
  postId post = Some pid -> pid <> EmptyString -> pid ∉ seen ->
  (forall m, exists st,
      extract_posts (snapshot (pre ++ a :: rest)) (Some seen) m = Returns st)
  /\ (forall m posts seen',
        extract_loop (a :: rest) m (posts, seen')
        = if cap_reached m posts then (posts, seen')
          else extract_loop rest m (posts, seen'))
  /\ extract_posts (snapshot (pre ++ a :: rest)) (Some seen) max_posts
     = extract_posts (snapshot (pre ++ rest)) (Some seen) max_posts
  /\ (exists more seen',
        extract_posts (snapshot (a :: b :: rest)) (Some seen) max_posts
        = Returns (post :: more, seen')
        /\ pid ∈ seen').
Proof.
  intros Ha Hcap Hb Hid Hne Hnew.
  assert (forall m posts seen',
             extract_loop (a :: rest) m (posts, seen')
             = if cap_reached m posts then (posts, seen')
               else extract_loop rest m (posts, seen')) as Hstep.
  { intros m posts seen'. rewrite extract_loop_cons.
    unfold block_step, try_block. by rewrite Ha. }
  split; [|split; [|split]].
  - intros m. unfold extract_posts. simpl. eauto.
  - exact Hstep.
  - unfold extract_posts. simpl. f_equal.
    by apply (extract_loop_failed_block a e).
  - unfold extract_posts. cbn [snapshot page_query_selector_all mbind outcome_bind].
    pose proof (extract_loop_failed_block a e [] (b :: rest) max_posts ([], seen)
                  Ha Hcap) as Hf.
    simpl app in Hf. rewrite Hf, extract_loop_cons.
    unfold block_step, try_block. rewrite Hb. simpl.
    unfold resolve_identity. rewrite Hid.
    destruct pid as [|c r]; [done|]. simpl. rewrite Hid. simpl.
    rewrite bool_decide_eq_false_2 by done. simpl.
    destruct (cap_reached max_posts [post]).
    + exists [], ({[String c r]} ∪ seen). split; [done|set_solver].
    + destruct (extract_loop_appends rest max_posts [post] ({[String c r]} ∪ seen))
        as (new & Hp & _ & _ & Hs).
      destruct (extract_loop rest max_posts ([post], {[String c r]} ∪ seen))
        as [posts' seen'] eqn:E.
      simpl in *. subst posts'. exists new, seen'. split; [done|].
      apply Hs. left. apply elem_of_union_l. by apply elem_of_singleton.
Qed.

(** Two blocks with the same concatenation: the second is a duplicate of
    the first, whatever the first met. *)
Lemma extract_posts_same_base (a1 a2 : article) (p1 p2 : FacebookPost)
      (seen : gset string) (max_posts : option Z) :
  _parse_article a1 = Returns p1 ->
  _parse_article a2 = Returns p2 ->
  Py.truthy (postId p1) = false ->
  Py.truthy (postId p2) = false ->
  fallback_base p1 = fallback_base p2 ->
  extract_posts (snapshot [a1; a2]) (Some seen) max_posts
  = extract_posts (snapshot [a1]) (Some seen) max_posts.
Proof.
  intros Hp1 Hp2 H1 H2 Hb. unfold extract_posts. simpl. f_equal.
  unfold block_step, try_block. rewrite Hp1, Hp2. simpl.
  unfold resolve_identity, fallback_id. rewrite H1, H2, Hb.
  destruct (Py.strip (fallback_base p2)) eqn:S; simpl; [done|].
  set (pid := Py.str_of_int _).
  case_bool_decide as Hin; simpl.
  - by rewrite bool_decide_eq_true_2.
  - destruct (cap_reached max_posts _); [done|].
    rewrite bool_decide_eq_true_2 by set_solver. done.
Qed.

End Identity.

(** C10. The synthesized identifier does not tell ("ab", "c") from
    ("a", "bc"): the two blocks parse to records with different
    (text, URL) pairs and the same synthesized identifier, and a pass over
    both admits the first and drops the second as a duplicate. *)
Theorem synthesized_identity_not_injective `{Runtime} :
  exists p1 p2,
    _parse_article Sample.ab_c = Returns p1
    /\ _parse_article Sample.a_bc = Returns p2
    /\ (text p1, url p1) <> (text p2, url p2)
    /\ postId <$> resolve_identity p1 = postId <$> resolve_identity p2
    /\ (exists pid, postId <$> resolve_identity p1 = Some (Some pid))
    /\ (forall seen max_posts,
          extract_posts (snapshot [Sample.ab_c; Sample.a_bc]) (Some seen) max_posts
          = extract_posts (snapshot [Sample.ab_c]) (Some seen) max_posts)
    /\ (exists q,
          extract_posts (snapshot [Sample.ab_c; Sample.a_bc]) (Some ∅) None
          = Returns ([q], {[Py.or_empty (postId q)]})
          /\ text q = Some "ab" /\ url q = Some "c").
Proof.
  assert (exists p1, _parse_article Sample.ab_c = Returns p1
                     /\ postId p1 = None /\ text p1 = Some "ab" /\ url p1 = Some "c")
    as (p1 & Hp1 & Hid1 & Ht1 & Hu1)
    by (eexists; split; [reflexivity|repeat split]).
  assert (exists p2, _parse_article Sample.a_bc = Returns p2
                     /\ postId p2 = None /\ text p2 = Some "a" /\ url p2 = Some "bc")
    as (p2 & Hp2 & Hid2 & Ht2 & Hu2)
    by (eexists; split; [reflexivity|repeat split]).
  assert (fallback_base p1 = fallback_base p2) as Hb
    by (unfold fallback_base; by rewrite Ht1, Hu1, Ht2, Hu2).
  assert (Py.strip (fallback_base p1) = "abc") as Hs
    by (unfold fallback_base; by rewrite Ht1, Hu1).
  exists p1, p2. split; [done|]. split; [done|].
  split; [rewrite Ht1, Hu1, Ht2, Hu2; intros [=]|].
  split; [apply resolve_identity_base; by rewrite ?Hid1, ?Hid2|].
  split; [unfold resolve_identity; rewrite Hid1, Hs; simpl; eauto|].
  split.
  - intros seen max_posts.
    apply (extract_posts_same_base _ _ p1 p2); by rewrite ?Hid1, ?Hid2.
  - exists (set_postId (fallback_id p1) p1).
    split; [|by rewrite <- Ht1, <- Hu1].
    rewrite (extract_posts_same_base _ _ p1 p2) by (by rewrite ?Hid1, ?Hid2).
    rewrite (extract_posts_synthesized _ p1); [|done|by rewrite Hid1|by rewrite Hs|set_solver].
    simpl. by rewrite union_empty_r_L.
Qed.

(** ** The scroll loop *)

Section Stall.
Context `{Runtime}.

Lemma scroll_loop_unfold (feed : nat -> page) (max_posts : Z) (stall_threshold : nat)
      (remaining iteration stalled : nat) (results : list FacebookPost)
      (seen : gset string) :
  scroll_loop feed max_posts stall_threshold remaining iteration stalled results seen
  = ('(new, seen) ← extract_posts (feed iteration) (Some seen)
                                  (Some (max_posts - Z.of_nat (length results)));
     let results := results ++ new in
     let stalled := match new with [] => S stalled | _ => 0%nat end in
     if max_posts <=? Z.of_nat (length results)
     then Returns (results, TargetReached, iteration)
     else match remaining with
          | O => Returns (results, BudgetExhausted, iteration)
          | S remaining' =>
              if (stall_threshold <=? stalled)%nat
              then Returns (results, Stalled, iteration)
              else scroll_loop feed max_posts stall_threshold remaining'
                               (S iteration) stalled results seen
          end).
Proof. by destruct remaining. Qed.

(** A pass that admits nothing leaves the set as it was. *)
Lemma extract_posts_nothing_new (pg : page) (seen seen' : gset string)
      (max_posts : option Z) :
  extract_posts pg (Some seen) max_posts = Returns ([], seen') -> seen' = seen.
Proof.
  unfold extract_posts.
  destruct (page_query_selector_all pg _) as [arts|]; [|discriminate].
  cbn [mbind outcome_bind]. intros [= E].
  destruct (extract_loop_appends arts max_posts [] seen) as (new & Hp & _ & _ & Hs).
  rewrite E in Hp, Hs. simpl in *. subst new.
  apply set_eq. intros pid. rewrite Hs. split; [intros [?|Hin]|by left]; [done|].
  inversion Hin.
Qed.

(** Once the stall counter and the quiet passes ahead together reach the
    threshold, the loop returns what it holds before the quiet passes are
    used up. *)
Lemma scroll_loop_quiet (feed : nat -> page) (max_posts : Z) (stall_threshold : nat)
      (results : list FacebookPost) (seen : gset string) (n : nat) :
  forall remaining iteration stalled,
    (1 <= n)%nat ->
    (stall_threshold <= stalled + n)%nat ->
    (forall j, (iteration <= j < iteration + n)%nat ->
       exists seen',
         extract_posts (feed j) (Some seen)
                       (Some (max_posts - Z.of_nat (length results)))
         = Returns ([], seen')) ->
    exists reason k,
      scroll_loop feed max_posts stall_threshold remaining iteration stalled
                  results seen
      = Returns (results, reason, k)
      /\ (iteration <= k < iteration + n)%nat.
Proof.
  induction n as [|n IH]; intros remaining iteration stalled Hn Hs Hq; [lia|].
  rewrite scroll_loop_unfold.
  destruct (Hq iteration ltac:(lia)) as (seen' & E).
  pose proof (extract_posts_nothing_new _ _ _ _ E) as ->.
  rewrite E. cbn [mbind outcome_bind]. rewrite app_nil_r.
  destruct (max_posts <=? Z.of_nat (length results));
    [exists TargetReached, iteration; split; [done|lia]|].
  destruct remaining as [|remaining];
    [exists BudgetExhausted, iteration; split; [done|lia]|].
  destruct (stall_threshold <=? S stalled)%nat eqn:T;
    [exists Stalled, iteration; split; [done|lia]|].
  apply Nat.leb_gt in T.
  destruct (IH remaining (S iteration) (S stalled)) as (reason & k & -> & Hk);
    [lia|lia| |].
  - intros j Hj. apply Hq. lia.
  - exists reason, k. split; [done|lia].
Qed.

(** C9. When the passes of [stall_threshold] consecutive iterations, from
    the current one on, admit nothing, the loop returns by the end of
    them, and at the latest one iteration after the current one when the
    threshold is zero: it runs at most [stall_threshold + 1] iterations,
    what it returns starts with the records it held, and is exactly these
    records when the threshold is positive.  An automation failure can
    end the session only where no pass was assumed, at threshold zero. *)
Theorem stall_terminates (feed : nat -> page) (max_posts : Z) (stall_threshold : nat)
        (remaining iteration stalled : nat) (results : list FacebookPost)
        (seen : gset string) :
  (forall j, (iteration <= j < iteration + stall_threshold)%nat ->
     exists seen',
       extract_posts (feed j) (Some seen)
                     (Some (max_posts - Z.of_nat (length results)))
       = Returns ([], seen')) ->
  match scroll_loop feed max_posts stall_threshold remaining iteration stalled
                    results seen with
  | Returns (out, _, k) =>
      (iteration <= k <= iteration + stall_threshold)%nat
      /\ (exists extra, out = results ++ extra)
      /\ ((1 <= stall_threshold)%nat ->
          out = results /\ (k < iteration + stall_threshold)%nat)
  | Raises _ => stall_threshold = 0%nat
  end.
Proof.
  intros Hq. destruct stall_threshold as [|t].
  - rewrite scroll_loop_unfold.
    destruct (extract_posts _ _ _) as [[new seen']|]; [|done].
    cbn [mbind outcome_bind].
    assert ((iteration <= iteration <= iteration + 0)%nat
            /\ (exists extra, results ++ new = results ++ extra)
            /\ ((1 <= 0)%nat -> results ++ new = results
                                /\ (iteration < iteration + 0)%nat)) as Hdone
      by (repeat split; eauto; lia).
    destruct (max_posts <=? _); [exact Hdone|].
    destruct remaining; exact Hdone.
  - destruct (scroll_loop_quiet feed max_posts (S t) results seen (S t)
                remaining iteration stalled) as (reason & k & -> & Hk);
      [lia|lia|done|].
    split; [lia|]. split; [exists []; by rewrite app_nil_r|].
    intros _. split; [done|lia].
Qed.

(** The same for a whole session that meets nothing but quiet passes. *)
Corollary scrape_search_quiet (feed : nat -> page) (max_scroll stall_threshold : nat)
          (max_posts : Z) :
  (1 <= stall_threshold)%nat ->
  (forall j, (1 <= j <= stall_threshold)%nat ->
     exists seen', extract_posts (feed j) (Some ∅) (Some max_posts)
                   = Returns ([], seen')) ->
  exists reason k,
    scrape_search feed max_scroll stall_threshold max_posts = Returns ([], reason, k)
    /\ (k <= stall_threshold)%nat.
Proof.
  intros Ht Hq. unfold scrape_search.
  destruct (scroll_loop_quiet feed max_posts stall_threshold [] ∅ stall_threshold
              (Nat.pred max_scroll) 1%nat 0%nat) as (reason & k & E & Hk);
    [lia|lia| |].
  - intros j Hj. simpl. rewrite Z.sub_0_r. apply Hq. lia.
  - exists reason, k. split; [done|lia].
Qed.

End Stall.

(** ** The properties on the sample blocks *)

(** The block tagged "abc123" is admitted under that identifier. *)
Lemma post_id_from_metadata_sample :
  exists post,
    postId post = Some "abc123"
    /\ @extract_posts Sample.runtime (snapshot [Sample.tagged]) (Some ∅) None
       = Returns ([post], {["abc123"]} ∪ ∅).
Proof.
  destruct (@_parse_article Sample.runtime Sample.tagged) as [post|] eqn:E;
    [|vm_compute in E; discriminate].
  exists post.
  destruct (@post_id_from_metadata Sample.runtime Sample.tagged
              (Sample.blob "top_level_post_id" "abc123")
              {[ "top_level_post_id" := PStr "abc123" ]}
              post ∅ None) as (Hid & Hin_pass & _).
  - reflexivity.
  - vm_compute. discriminate.
  - reflexivity.
  - exact E.
  - split; [exact Hid|]. apply Hin_pass; [exact Hid|discriminate|set_solver].
Defined.

(** A null under [top_level_post_id] hides the story key "k9", and an empty
    string there is not kept: both blocks are admitted under the synthesized
    identifier. *)
Lemma post_id_null_hides_story_key :
  Cases.null_dict !! "top_level_post_id" = Some PNone
  /\ Cases.null_dict !! "mf_story_key" = Some (PStr "k9")
  /\ Cases.empty_dict !! "top_level_post_id" = Some (PStr "")
  /\ (exists post q seen',
        @_parse_article Cases.runtime Cases.null_keyed = Returns post
        /\ postId post = None
        /\ @extract_posts Cases.runtime (snapshot [Cases.null_keyed]) (Some ∅) None
           = Returns ([q], seen')
        /\ postId q = Some (@fallback_id Cases.runtime post)
        /\ postId q <> Some "k9")
  /\ (exists post q seen',
        @_parse_article Cases.runtime Cases.empty_keyed = Returns post
        /\ postId post = Some ""
        /\ @extract_posts Cases.runtime (snapshot [Cases.empty_keyed]) (Some ∅) None
           = Returns ([q], seen')
        /\ postId q = Some (@fallback_id Cases.runtime post)
        /\ postId q <> Some "").
Proof.
  split; [reflexivity|]. split; [reflexivity|]. split; [reflexivity|]. split.
  - eexists _, _, _. split; [vm_compute; reflexivity|]. split; [reflexivity|].
    split; [vm_compute; reflexivity|]. split; [vm_compute; reflexivity|].
    vm_compute. discriminate.
  - eexists _, _, _. split; [vm_compute; reflexivity|]. split; [reflexivity|].
    split; [vm_compute; reflexivity|]. split; [vm_compute; reflexivity|].
    vm_compute. discriminate.
Qed.

(** The blank block between two others leaves the pass over them as it is. *)
Lemma unidentifiable_block_discarded_sample :
  @extract_posts Sample.runtime (snapshot [Sample.blank]) (Some ∅) None
  = Returns ([], ∅)
  /\ @extract_posts Sample.runtime
       (snapshot ([Sample.hello] ++ Sample.blank :: [Sample.tagged])) (Some ∅) None
     = @extract_posts Sample.runtime
         (snapshot ([Sample.hello] ++ [Sample.tagged])) (Some ∅) None.
Proof.
  destruct (@_parse_article Sample.runtime Sample.blank) as [post|] eqn:E;
    [|vm_compute in E; discriminate].
  apply (@unidentifiable_block_discarded Sample.runtime Sample.blank post);
    [exact E|..]; vm_compute in E; injection E as <-; reflexivity.
Defined.

(** Two records that differ only in their like counts. *)
Lemma identity_synthesis_deterministic_sample :
  postId <$> @resolve_identity Sample.runtime
               (Sample.bare (Some "hello") (Some "u") (Some 1))
  = postId <$> @resolve_identity Sample.runtime
                 (Sample.bare (Some "hello") (Some "u") (Some 2)).
Proof.
  exact (proj1 (@identity_synthesis_deterministic Sample.runtime
                  (Sample.bare (Some "hello") (Some "u") (Some 1))
                  (Sample.bare (Some "hello") (Some "u") (Some 2))
                  eq_refl eq_refl eq_refl eq_refl)).
Defined.

(** The broken block before the tagged one, under a cap of five. *)
Lemma block_failure_is_local_sample :
  @extract_posts Sample.runtime
    (snapshot ([Sample.hello] ++ Sample.broken :: [Sample.ab_c])) (Some ∅) (Some 5)
  = @extract_posts Sample.runtime
      (snapshot ([Sample.hello] ++ [Sample.ab_c])) (Some ∅) (Some 5)
  /\ exists more seen',
      @extract_posts Sample.runtime
        (snapshot (Sample.broken :: Sample.tagged :: [Sample.ab_c])) (Some ∅) (Some 5)
      = Returns (Cases.tagged_post :: more, seen')
      /\ "abc123" ∈ seen'.
Proof.
  destruct (@block_failure_is_local Sample.runtime Sample.broken Sample.tagged
              AutomationError [Sample.hello] [Sample.ab_c] Cases.tagged_post
              "abc123" ∅ (Some 5)) as (_ & _ & Hsame & Hlater).
  - reflexivity.
  - reflexivity.
  - vm_compute. reflexivity.
  - reflexivity.
  - discriminate.
  - set_solver.
  - split; [exact Hsame|exact Hlater].
Defined.

(** Under a cap of zero the failed block ends the pass: the tagged block
    after it, which a pass over it alone returns, is not looked at. *)
Lemma block_failure_ends_pass_at_cap_zero :
  @_parse_article Sample.runtime Sample.broken = Raises AutomationError
  /\ @extract_posts Sample.runtime (snapshot [Sample.broken; Sample.tagged])
       (Some ∅) (Some 0) = Returns ([], ∅)
  /\ @extract_posts Sample.runtime (snapshot [Sample.tagged]) (Some ∅) (Some 0)
     = Returns ([Cases.tagged_post], {["abc123"]} ∪ ∅).
Proof. repeat split; vm_compute; reflexivity. Qed.

(** A session on the still feed, after its first pass, with a threshold of
    three. *)
Lemma stall_terminates_sample :
  match @scroll_loop Sample.runtime Sample.still_feed 10 3 98 2 0
                     Sample.first_pass.1 Sample.first_pass.2 with
  | Returns (out, _, k) =>
      (2 <= k <= 2 + 3)%nat
      /\ (exists extra, out = Sample.first_pass.1 ++ extra)
      /\ ((1 <= 3)%nat -> out = Sample.first_pass.1 /\ (k < 2 + 3)%nat)
  | Raises _ => 3%nat = 0%nat
  end.
Proof.
  apply (@stall_terminates Sample.runtime Sample.still_feed 10 3 98 2 0
           Sample.first_pass.1 Sample.first_pass.2).
  intros j _. eexists. vm_compute. reflexivity.
Defined.

(** * Further properties of the parser *)

(** ** The count parser, for every text *)

Lemma scan_decimal_no_digit (s : string) (seen_dot : bool) (m : Z) (k : nat) :
  Py.all_chars (fun c => negb (Py.is_decimal c)) s = true ->
  Py.scan_decimal s seen_dot m k false = None.
Proof.
  revert seen_dot. induction s as [|c r IH]; intros seen_dot; simpl; [done|].
  intros [Hc Hr]%andb_prop. apply negb_true_iff in Hc. rewrite Hc.
  destruct ((Py.code c =? 46) && negb seen_dot); [by apply IH|done].
Qed.

Lemma take_count_chars_no_digit (s : string) :
  Py.all_chars (fun c => negb (Py.is_decimal c)) s = true ->
  Py.all_chars (fun c => negb (Py.is_decimal c)) (take_count_chars s) = true.
Proof.
  induction s as [|c r IH]; simpl; [done|].
  intros [Hc Hr]%andb_prop. destruct (is_count_char c); simpl; [|done].
  rewrite Hc. by apply IH.
Qed.

Lemma remove_commas_no_digit (s : string) :
  Py.all_chars (fun c => negb (Py.is_decimal c)) s = true ->
  Py.all_chars (fun c => negb (Py.is_decimal c)) (Py.remove_commas s) = true.
Proof.
  induction s as [|c r IH]; simpl; [done|].
  intros [Hc Hr]%andb_prop. destruct (Py.code c =? 44); simpl; [by apply IH|].
  rewrite Hc. by apply IH.
Qed.

Lemma search_count_run_no_digit (t g1 : string) :
  Py.all_chars (fun c => negb (Py.is_decimal c)) t = true ->
  search_count_run t = Some g1 ->
  Py.all_chars (fun c => negb (Py.is_decimal c)) g1 = true.
Proof.
  induction t as [|c r IH]; simpl; [done|].
  intros [Hc Hr]%andb_prop. destruct (is_count_char c) eqn:E.
  - intros [= <-]. simpl. rewrite Hc. by apply take_count_chars_no_digit.
  - by apply IH.
Qed.

(** X1. A text without a decimal digit has no count: the parser returns
    [None] for it, whatever points, commas and scale letters it holds. *)
Theorem parse_engagement_number_no_digit (t : string) :
  Py.all_chars (fun c => negb (Py.is_decimal c)) t = true ->
  _parse_engagement_number t = Returns None.
Proof.
  intros Hd. unfold _parse_engagement_number.
  destruct (search_count_run t) as [g1|] eqn:E; [|done].
  unfold Py.float_of_str.
  rewrite scan_decimal_no_digit; [done|].
  apply remove_commas_no_digit. by apply (search_count_run_no_digit t).
Qed.

(** Rounding keeps a mantissa that is not negative away from NaN and from
    the negative values. *)
Lemma shr_1_nonneg (mrs : shr_record) :
  0 <= shr_m mrs -> 0 <= shr_m (shr_1 mrs).
Proof. destruct mrs as [[|[p|p|]|p] r s]; simpl; lia. Qed.

Lemma iter_pos_shr_1_nonneg (n : positive) (mrs : shr_record) :
  0 <= shr_m mrs -> 0 <= shr_m (SpecFloat.iter_pos shr_1 n mrs).
Proof.
  revert mrs. induction n as [n IH|n IH|]; intros mrs Hm; simpl.
  - by apply IH, IH, shr_1_nonneg.
  - by apply IH, IH.
  - by apply shr_1_nonneg.
Qed.

Lemma shr_fexp_nonneg (m e : Z) (l : location) :
  0 <= m -> 0 <= shr_m (shr_fexp Py.prec Py.emax m e l).1.
Proof.
  intros Hm. unfold shr_fexp, shr.
  assert (0 <= shr_m (shr_record_of_loc m l)) as H0
    by (destruct l as [|[]]; simpl; lia).
  destruct (_ - e); simpl; try done. by apply iter_pos_shr_1_nonneg.
Qed.

Lemma binary_round_aux_nonneg (m e : Z) (l : location) :
  0 <= m -> nonneg_float (binary_round_aux Py.prec Py.emax false m e l) = true.
Proof.
  intros Hm. unfold binary_round_aux.
  pose proof (shr_fexp_nonneg m e l Hm) as H1.
  destruct (shr_fexp Py.prec Py.emax m e l) as [mrs' e']. simpl in H1.
  assert (0 <= round_nearest_even (shr_m mrs') (loc_of_shr_record mrs')) as H2.
  { unfold round_nearest_even.
    destruct (loc_of_shr_record mrs') as [|[]]; try lia.
    destruct (Z.even _); lia. }
  pose proof (shr_fexp_nonneg _ e' loc_Exact H2) as H3.
  destruct (shr_fexp Py.prec Py.emax _ e' loc_Exact) as [mrs'' e'']. simpl in H3.
  destruct (shr_m mrs'') as [|p|p]; simpl; [done| |lia].
  by destruct (e'' <=? _).
Qed.

Lemma float_of_decimal_nonneg (m : Z) (k : nat) :
  nonneg_float (Py.float_of_decimal m k) = true.
Proof.
  unfold Py.float_of_decimal. destruct m as [|p|p]; [done| |done].
  unfold SFdiv, SFdiv_core_binary.
  set (e' := Z.min _ _). set (m' := match _ - e' with Z0 => _ | _ => _ end).
  assert (0 <= m') as Hm'.
  { subst m'. destruct (_ - e'); [lia| |lia]. rewrite Z.shiftl_mul_pow2 by lia. lia. }
  pose proof (Z.div_eucl_eq m' (Z.pos (Z.to_pos (10 ^ Z.of_nat k))) ltac:(lia)) as Hq.
  pose proof (Z.mod_pos_bound m' (Z.pos (Z.to_pos (10 ^ Z.of_nat k))) ltac:(lia)) as Hr.
  unfold Z.modulo in Hr.
  destruct (Z.div_eucl m' _) as [q r].
  apply binary_round_aux_nonneg. nia.
Qed.

Lemma float_mul_nonneg (x y : spec_float) :
  nonneg_float x = true -> nonneg_float y = true ->
  match y with S754_finite _ _ _ => True | _ => False end ->
  nonneg_float (Py.float_mul x y) = true.
Proof.
  destruct x as [[]|[]| |[] mx ex], y as [[]|[]| |[] my ey]; simpl; try done.
  intros _ _ _. apply binary_round_aux_nonneg. lia.
Qed.

Lemma int_of_float_nonneg (x : spec_float) :
  nonneg_float x = true ->
  Py.int_of_float x = Raises OverflowError
  \/ exists n, Py.int_of_float x = Returns n /\ 0 <= n.
Proof.
  destruct x as [[]|[]| |[] m e]; simpl; try done; intros _.
  - right. exists 0. split; [done|lia].
  - by left.
  - right. eexists. split; [done|].
    destruct (0 <=? e) eqn:E.
    + apply Z.mul_nonneg_nonneg; [lia|]. apply Z.pow_nonneg. lia.
    + apply Z.leb_gt in E. apply Z.div_pos; [lia|]. apply Z.pow_pos_nonneg; lia.
Qed.

(** X2. For every text the parser gives no count, a count that is not
    negative, or an [OverflowError]; it never returns a negative count and
    never raises anything else. *)
Theorem parse_engagement_number_range (t : string) :
  _parse_engagement_number t = Returns None
  \/ (exists n, _parse_engagement_number t = Returns (Some n) /\ 0 <= n)
  \/ _parse_engagement_number t = Raises OverflowError.
Proof.
  unfold _parse_engagement_number.
  destruct (search_count_run t) as [g1|]; [|by left].
  unfold Py.float_of_str.
  destruct (Py.scan_decimal _ _ _ _ _) as [[m k]|]; [|by left].
  set (mult := if search_char is_Kk t then _ else _).
  assert (nonneg_float (Py.float_mul (Py.float_of_decimal m k) (Py.float_of_int mult))
          = true) as Hn.
  { apply float_mul_nonneg; [apply float_of_decimal_nonneg|..];
      subst mult; destruct (search_char is_Kk t); try done;
      destruct (search_char is_Mm t); done. }
  destruct (int_of_float_nonneg _ Hn) as [->|(n & -> & Hn')].
  - by right; right.
  - right; left. by exists n.
Qed.

(** An overflow does happen: 400 digits are beyond the range of a float. *)
Example parse_engagement_number_overflow :
  _parse_engagement_number
    (Py.str_of_int (10 ^ 400)) = Raises OverflowError.
Proof. vm_compute. reflexivity. Qed.


Lemma char_lower_m (c : ascii) :
  Py.char_lower c = "m"%char -> is_Mm c = true.
Proof.
  destruct c as [[] [] [] [] [] [] [] []]; vm_compute; congruence.
Qed.

Lemma prefix_cons (a b : ascii) (s1 s2 : string) :
  String.prefix (String a s1) (String b s2) = true ->
  a = b /\ String.prefix s1 s2 = true.
Proof. cbn [String.prefix]. by destruct (Ascii.ascii_dec a b). Qed.

Lemma prefix_lower_third (a1 a2 a3 : ascii) (rest s : string) :
  String.prefix (String a1 (String a2 (String a3 rest))) (Py.lower s) = true ->
  exists c1 c2 c3 r,
    s = String c1 (String c2 (String c3 r)) /\ Py.char_lower c3 = a3.
Proof.
  destruct s as [|c1 [|c2 [|c3 r]]]; cbn [Py.lower]; try done.
  - by intros [_ ?]%prefix_cons.
  - by intros [_ [_ ?]%prefix_cons]%prefix_cons.
  - intros [_ [_ [-> _]%prefix_cons]%prefix_cons]%prefix_cons. by eexists _, _, _, _.
Qed.


Lemma contains_comment_Mm (s : string) :
  Py.contains "comment" (Py.lower s) = true -> search_char is_Mm s = true.
Proof.
  induction s as [|c r IH]; [done|].
  cbn [Py.lower Py.contains]. intros [Hp|Hr]%orb_prop.
  - change (String (Py.char_lower c) (Py.lower r)) with (Py.lower (String c r)) in Hp.
    apply prefix_lower_third in Hp as (c1 & c2 & c3 & r' & [= -> ->] & Hk).
    simpl. rewrite (char_lower_m c3) by done. by rewrite !orb_true_r.
  - simpl. rewrite IH by done. apply orb_true_r.
Qed.

Lemma _parse_engagement_number_scaled (t : string) :
  _parse_engagement_number t =
  count_scaled t (if search_char is_Kk t then 1000
                  else if search_char is_Mm t then 1000000 else 1).
Proof. reflexivity. Qed.






(** X4. A label that holds "comment" never has its number taken as it
    stands: it is multiplied by 1000 when a "k" occurs in the label and by
    1000000 otherwise. *)
Theorem comment_label_scaled (txt : string) :
  Py.contains "comment" (Py.lower txt) = true ->
  _parse_engagement_number txt =
  count_scaled txt (if search_char is_Kk txt then 1000 else 1000000).
Proof.
  intros Hc. rewrite _parse_engagement_number_scaled.
  by rewrite (contains_comment_Mm txt Hc).
Qed.

(** ** The loop of [_parse_engagement] *)

Lemma _parse_engagement_nodes_app (n1 n2 : list handle) (acc : counts) :
  _parse_engagement_nodes (n1 ++ n2) acc =
  (acc' ← _parse_engagement_nodes n1 acc; _parse_engagement_nodes n2 acc').
Proof.
  revert acc. induction n1 as [|node rest IH]; intros acc; [done|].
  simpl. destruct (inner_text node) as [t|]; [|apply IH].
  destruct acc as [[l c] s].
  repeat (destruct (Py.contains _ _);
          [destruct (_parse_engagement_number _) as [?|]; [apply IH|done]|]).
  apply IH.
Qed.

Lemma _parse_engagement_nodes_passed_over (node : handle) (rest : list handle)
      (acc : counts) :
  passed_over node = true ->
  _parse_engagement_nodes (node :: rest) acc = _parse_engagement_nodes rest acc.
Proof.
  unfold passed_over. simpl. destruct (inner_text node) as [t|]; [|done].
  destruct acc as [[l c] s].
  by repeat (destruct (Py.contains _ _); [simpl; by rewrite ?andb_false_r|]).
Qed.

(** X5. Nodes whose text cannot be read and nodes without one of the
    keywords "like", "comment", "share" have no part in the counts: the loop
    gives the same result with them and without them. *)
Theorem engagement_passes_over (nodes : list handle) (acc : counts) :
  _parse_engagement_nodes nodes acc =
  _parse_engagement_nodes (filter (fun n => passed_over n = false) nodes) acc.
Proof.
  revert acc. induction nodes as [|node rest IH]; intros acc; [done|].
  rewrite filter_cons. case_decide as Hp.
  - simpl. destruct (inner_text node) as [t|]; [|apply IH].
    destruct acc as [[l c] s].
    repeat (destruct (Py.contains _ _);
            [destruct (_parse_engagement_number _) as [?|]; [apply IH|done]|]).
    apply IH.
  - apply not_false_is_true in Hp.
    rewrite _parse_engagement_nodes_passed_over by done. apply IH.
Qed.

(** A like count stays as it is over nodes none of which gives it a
    value. *)
Lemma likes_kept_over (rest : list handle) (v : Z) :
  Forall (fun n => sets_likes n = false) rest ->
  forall c0 s0 l c s,
    _parse_engagement_nodes rest (Some v, c0, s0) = Returns (l, c, s) ->
    l = Some v.
Proof.
  induction 1 as [|node rest Hn _ IH]; intros c0 s0 l c s.
  - by intros [= <- _ _].
  - unfold sets_likes in Hn. simpl.
    destruct (inner_text node) as [t|]; [|apply IH].
    destruct (Py.contains "like" _).
    + destruct (_parse_engagement_number _) as [[w|]|]; [done| |done].
      cbn [mbind outcome_bind]. apply IH.
    + repeat (destruct (Py.contains _ _);
              [destruct (_parse_engagement_number _) as [[w|]|]; [| |done];
               cbn [mbind outcome_bind]; apply IH|]).
      apply IH.
Qed.

(** X6. The last like label that carries a number decides the like count:
    after it, labels of the other kinds, like labels without a number and
    nodes that are passed over leave the like count as that label set it;
    and the label itself changes neither the comment count nor the share
    count, whatever else its text holds. *)
Theorem engagement_last_like_wins (pre rest : list handle) (node : handle)
        (t : string) (v : Z) (acc : counts) :
  inner_text node = Returns t ->
  Py.contains "like" (Py.lower (Py.strip t)) = true ->
  _parse_engagement_number (Py.strip t) = Returns (Some v) ->
  Forall (fun n => sets_likes n = false) rest ->
  (forall l0 c0 s0,
      _parse_engagement_nodes pre acc = Returns (l0, c0, s0) ->
      _parse_engagement_nodes (pre ++ [node]) acc = Returns (Some v, c0, s0))
  /\ (forall l c s,
        _parse_engagement_nodes (pre ++ node :: rest) acc = Returns (l, c, s) ->
        l = Some v).
Proof.
  intros Ht Hl Hv Hrest. split.
  - intros l0 c0 s0 Hn. rewrite _parse_engagement_nodes_app, Hn.
    cbn [mbind outcome_bind]. simpl. by rewrite Ht, Hl, Hv.
  - intros l c s. rewrite _parse_engagement_nodes_app.
    destruct (_parse_engagement_nodes pre acc) as [[[l0 c0] s0]|]; [|done].
    cbn [mbind outcome_bind]. simpl. rewrite Ht, Hl, Hv.
    cbn [mbind outcome_bind]. by apply likes_kept_over.
Qed.

(** X7. A count that is set is never cleared: from one node to the next
    each of the three counts stays set once it is, also where a later label
    of its kind has no number. *)
Theorem engagement_counts_kept (nodes : list handle) (l c s l' c' s' : option Z) :
  _parse_engagement_nodes nodes (l, c, s) = Returns (l', c', s') ->
  (is_Some l -> is_Some l') /\ (is_Some c -> is_Some c') /\ (is_Some s -> is_Some s').
Proof.
  revert l c s. induction nodes as [|node rest IH]; intros l c s.
  - by intros [= -> -> ->].
  - simpl. destruct (inner_text node) as [t|]; [|apply IH].
    repeat (destruct (Py.contains _ _);
            [destruct (_parse_engagement_number _) as [[v|]|]; [| |done];
             cbn [mbind outcome_bind]; intros E; apply IH in E;
             destruct E as (H1 & H2 & H3); repeat split; eauto|]).
    apply IH.
Qed.

(** A label of one of the three kinds whose number cannot be converted ends
    the loop with the error, whatever the nodes after it hold. *)
Lemma engagement_error_propagates (pre rest : list handle) (node : handle)
      (t : string) (e : exn) (acc acc' : counts) :
  _parse_engagement_nodes pre acc = Returns acc' ->
  inner_text node = Returns t ->
  passed_over node = false ->
  _parse_engagement_number (Py.strip t) = Raises e ->
  _parse_engagement_nodes (pre ++ node :: rest) acc = Raises e.
Proof.
  intros Hp Ht Hr He. rewrite _parse_engagement_nodes_app, Hp.
  cbn [mbind outcome_bind]. unfold passed_over in Hr. rewrite Ht in Hr.
  simpl in *. rewrite Ht. destruct acc' as [[l c] s].
  repeat (destruct (Py.contains _ _); [by rewrite He|]).
  done.
Qed.

(** ** [_safe_get_nested] for any list of keys *)

(** X9. The value returned is the one under the first key of the list that
    the dictionary has, rendered by [str]; when that value is null the
    result is [None], and the keys after it are not looked at. *)
Theorem safe_get_nested_first_present (d : gmap string pyval) (pre rest : list string)
        (k : string) (v : pyval) :
  Forall (fun k' => d !! k' = None) pre ->
  d !! k = Some v ->
  _safe_get_nested (PDict d) (pre ++ k :: rest) =
  match v with PNone => None | _ => Some (py_str v) end.
Proof.
  intros Hpre Hk. induction Hpre as [|k' pre Hk' _ IH]; simpl.
  - rewrite Hk. by destruct v.
  - rewrite Hk'. apply IH.
Qed.

(** X10. Without a dictionary, or with a dictionary that has none of the
    keys, the result is [None]. *)
Theorem safe_get_nested_absent (data : pydata) (keys : list string) :
  match data with
  | PDict d => Forall (fun k => d !! k = None) keys
  | PNotDict => True
  end ->
  _safe_get_nested data keys = None.
Proof.
  destruct data as [d|]; [|by destruct keys].
  induction 1 as [|k keys Hk _ IH]; simpl; [done|]. by rewrite Hk.
Qed.

(** ** The record [_parse_article] builds *)

Section Record.
Context `{Runtime}.

Ltac step_binds E :=
  repeat match type of E with
         | context [mbind _ ?m] =>
             let r := fresh "r" in
             destruct m as [r|] eqn:?; cbn [mbind outcome_bind] in E; [|discriminate]
         | context [resolve_time ?t] =>
             let ts := fresh "ts" in
             destruct (resolve_time t) as [? ts] eqn:?
         end.

(** X11. In every record the parser returns, [topLevelUrl] is the [url],
    the timestamp is present, and is not zero unless the clock is, and the
    page name is never the empty string. *)
Theorem parse_article_record_invariants (a : article) (post : FacebookPost) :
  _parse_article a = Returns post ->
  topLevelUrl post = url post
  /\ (exists t, timestamp post = Some t /\ (time_time a <> 0 -> t <> 0))
  /\ pageName post <> Some EmptyString.
Proof.
  unfold _parse_article. intros E. step_binds E.
  match goal with c : counts |- _ => destruct c as [[? ?] ?] end.
  injection E as <-. simpl. split; [done|]. split.
  - eexists. split; [done|]. intros Hc. rewrite default_timestamp_cases.
    destruct ts as [n|]; [|done]. by case_decide.
  - match goal with
    | Hn : read_if ?pl _ = Returns ?name |- ?name <> _ =>
        destruct pl as [h|]; simpl in Hn; [|by injection Hn as <-];
        destruct (inner_text h) as [[|c s]|]; simpl in Hn; by try injection Hn as <-
    end.
Qed.

Lemma with_data_ft_parse (a : article) (raw : outcome (option string)) :
  _parse_article (with_data_ft a raw) =
  (data_ft_raw ← raw;
   let data_ft := load_data_ft data_ft_raw in
   let page_id := _safe_get_nested data_ft ["page_id"; "page_id"] in
   let post_id := _safe_get_nested data_ft ["top_level_post_id"; "mf_story_key"] in
   page_link ← query_selector a "h3 a[href*='facebook.com/']";
   facebook_url ← read_if page_link (fun h => get_attribute h "href");
   page_name ← read_if page_link (fun h =>
                  t ← inner_text h;
                  Returns (if Py.truthy (Some t) then Some t else None));
   post_link ← query_selector a "a[href*='/posts/'], a[href*='pfbid']";
   post_url ← read_if post_link (fun h => get_attribute h "href");
   time_node ← query_selector a "a[aria-label*=' at '], a[role='link'] time";
   let '(time_str, timestamp) := resolve_time time_node in
   let timestamp := default_timestamp timestamp (time_time a) in
   text_node ← query_selector a "div[dir='auto'] span, div[dir='auto']";
   post_text ← read_if text_node (fun h => t ← inner_text h; Returns (Some t));
   link_node ← query_selector a "a[rel~='noopener'], a[rel~='nofollow']";
   post_link_href ← read_if link_node (fun h => get_attribute h "href");
   thumb_node ← query_selector a "img[src][referrerpolicy]";
   post_thumb ← read_if thumb_node (fun h => get_attribute h "src");
   '(likes, comments, shares) ← _parse_engagement a;
   Returns {| facebookUrl := facebook_url; pageId := page_id; postId := post_id;
              pageName := page_name; url := post_url; time := time_str;
              timestamp := Some timestamp; likes := likes; comments := comments;
              shares := shares; text := post_text; link := post_link_href;
              thumb := post_thumb; topLevelUrl := post_url |}).
Proof. reflexivity. Qed.

Lemma load_data_ft_no_keys (raw : option string) (keys : list string) :
  Py.truthy raw = false
  \/ (exists e, json_loads (Py.or_empty raw) = Raises e)
  \/ json_loads (Py.or_empty raw) = Returns PNotDict ->
  _safe_get_nested (load_data_ft raw) keys = None.
Proof.
  intros Hmeta.
  assert (load_data_ft raw = PDict ∅ \/ load_data_ft raw = PNotDict) as [-> | ->].
  { unfold load_data_ft. destruct Hmeta as [->|[[e ->]| ->]]; [by left|..];
      destruct (Py.truthy raw); simpl; auto. }
  - induction keys as [|k keys IH]; simpl; [done|]. by rewrite lookup_empty.
  - by destruct keys.
Qed.

(** X12. Metadata that is absent, empty, not valid JSON or not a JSON object
    is tolerated: the parse of the block comes out as it does with no
    metadata attribute at all, failing only where that fails, and a record
    it returns has neither a page identifier nor a post identifier. *)
Theorem parse_article_without_metadata (a : article) (raw : option string) :
  Py.truthy raw = false
  \/ (exists e, json_loads (Py.or_empty raw) = Raises e)
  \/ json_loads (Py.or_empty raw) = Returns PNotDict ->
  _parse_article (with_data_ft a (Returns raw))
  = _parse_article (with_data_ft a (Returns None))
  /\ (forall post,
        _parse_article (with_data_ft a (Returns raw)) = Returns post ->
        pageId post = None /\ postId post = None).
Proof.
  intros Hmeta.
  assert (_parse_article (with_data_ft a (Returns raw))
          = _parse_article (with_data_ft a (Returns None))) as Heq.
  { rewrite !with_data_ft_parse. cbn [mbind outcome_bind].
    rewrite !(load_data_ft_no_keys raw) by done.
    rewrite !(load_data_ft_no_keys None) by (by left).
    reflexivity. }
  split; [done|]. intros post E.
  rewrite with_data_ft_parse in E. cbn [mbind outcome_bind] in E.
  rewrite !(load_data_ft_no_keys raw) in E by done.
  step_binds E.
  match goal with c : counts |- _ => destruct c as [[? ?] ?] end.
  by injection E as <-.
Qed.

Lemma with_time_node_parse (a : article) (tn : outcome (option handle)) :
  _parse_article (with_time_node a tn) =
  (data_ft_raw ← get_attribute (self a) "data-ft";
   let data_ft := load_data_ft data_ft_raw in
   let page_id := _safe_get_nested data_ft ["page_id"; "page_id"] in
   let post_id := _safe_get_nested data_ft ["top_level_post_id"; "mf_story_key"] in
   page_link ← query_selector a "h3 a[href*='facebook.com/']";
   facebook_url ← read_if page_link (fun h => get_attribute h "href");
   page_name ← read_if page_link (fun h =>
                  t ← inner_text h;
                  Returns (if Py.truthy (Some t) then Some t else None));
   post_link ← query_selector a "a[href*='/posts/'], a[href*='pfbid']";
   post_url ← read_if post_link (fun h => get_attribute h "href");
   time_node ← tn;
   let '(time_str, timestamp) := resolve_time time_node in
   let timestamp := default_timestamp timestamp (time_time a) in
   text_node ← query_selector a "div[dir='auto'] span, div[dir='auto']";
   post_text ← read_if text_node (fun h => t ← inner_text h; Returns (Some t));
   link_node ← query_selector a "a[rel~='noopener'], a[rel~='nofollow']";
   post_link_href ← read_if link_node (fun h => get_attribute h "href");
   thumb_node ← query_selector a "img[src][referrerpolicy]";
   post_thumb ← read_if thumb_node (fun h => get_attribute h "src");
   '(likes, comments, shares) ← _parse_engagement a;
   Returns {| facebookUrl := facebook_url; pageId := page_id; postId := post_id;
              pageName := page_name; url := post_url; time := time_str;
              timestamp := Some timestamp; likes := likes; comments := comments;
              shares := shares; text := post_text; link := post_link_href;
              thumb := post_thumb; topLevelUrl := post_url |}).
Proof. reflexivity. Qed.

(** X13. No read on the time node can fail the parse: with any node
    whatever in its place, readable or not, the parse fails exactly when it
    fails with no time node at all, and with the same error. *)
Theorem time_node_errors_absorbed (a : article) (tn : option handle) (e : exn) :
  _parse_article (with_time_node a (Returns tn)) = Raises e
  <-> _parse_article (with_time_node a (Returns None)) = Raises e.
Proof.
  rewrite !with_time_node_parse.
  destruct (get_attribute (self a) "data-ft") as [raw|]; [|done].
  cbn [mbind outcome_bind].
  repeat match goal with
         | |- context [mbind _ (query_selector a ?s)] =>
             destruct (query_selector a s); cbn [mbind outcome_bind]; [|done]
         | |- context [mbind _ (read_if ?n ?f)] =>
             destruct (read_if n f); cbn [mbind outcome_bind]; [|done]
         | |- context [resolve_time ?t] => destruct (resolve_time t)
         end.
  destruct (_parse_engagement a) as [[[? ?] ?]|]; cbn [mbind outcome_bind]; [|done].
  split; discriminate.
Qed.

(** X8. One count label with a number beyond the range of a float loses
    the whole block: the error of the count parser is not caught in
    [_parse_engagement], so the parse of the block fails. *)
Theorem parse_article_count_error (a : article) (pre rest : list handle)
        (node : handle) (t : string) (e : exn) (acc : counts) :
  query_selector_all a "span[dir='auto'], div[dir='auto']"
  = Returns (pre ++ node :: rest) ->
  _parse_engagement_nodes pre (None, None, None) = Returns acc ->
  inner_text node = Returns t ->
  passed_over node = false ->
  _parse_engagement_number (Py.strip t) = Raises e ->
  exists e', _parse_article a = Raises e'.
Proof.
  intros Hq Hp Ht Hr He.
  assert (_parse_engagement a = Raises e) as Heng.
  { unfold _parse_engagement. rewrite Hq. cbn [mbind outcome_bind].
    by apply (engagement_error_propagates pre rest node t e _ acc). }
  unfold _parse_article. rewrite Heng.
  repeat match goal with
         | |- context [mbind _ ?m] =>
             destruct m; cbn [mbind outcome_bind]; [|by eexists]
         | |- context [resolve_time ?tn] => destruct (resolve_time tn)
         end.
  by eexists.
Qed.

(** X22. A block in which nothing is found (no metadata attribute, no node
    for any selector) parses without error to the record whose only field
    is the timestamp, taken from the clock. *)
Theorem parse_article_empty_block (a : article) :
  get_attribute (self a) "data-ft" = Returns None ->
  (forall sel, query_selector a sel = Returns None) ->
  (forall sel, query_selector_all a sel = Returns []) ->
  _parse_article a =
  Returns {| facebookUrl := None; pageId := None; postId := None; pageName := None;
             url := None; time := None; timestamp := Some (time_time a);
             likes := None; comments := None; shares := None; text := None;
             link := None; thumb := None; topLevelUrl := None |}.
Proof.
  intros Hattr Hq Hall. unfold _parse_article, _parse_engagement.
  rewrite Hattr, !Hq, Hall. reflexivity.
Qed.

End Record.

(** ** The headless switch of [main.py] *)

(** X23. One of the flags [--headless] and [--no-headless] given alone
    decides whether the browser is headless; given together, or not at all,
    they leave the decision to the configuration. *)
Theorem headless_resolution (headless no_headless headless_config : bool) :
  effective_headless (force_headless_of_args headless no_headless) headless_config
  = if xorb headless no_headless then headless else headless_config.
Proof. by destruct headless, no_headless. Qed.

(** ** Passes of [extract_posts] over a snapshot *)

Section Passes.
Context `{Runtime}.

(** One block in detail: the state stays, or the block's record is
    appended and its identifier, which was not in the set, is added. *)
Lemma block_step_cases (a : article) (posts : list FacebookPost) (seen : gset string) :
  (block_step a (posts, seen)).2 = (posts, seen)
  \/ exists p pid,
      from_block a p /\ postId p = Some pid /\ (pid ∉ seen)
      /\ block_step a (posts, seen) = (Fallthrough, (posts ++ [p], {[pid]} ∪ seen)).
Proof.
  unfold block_step, try_block, from_block.
  destruct (_parse_article a) as [post|e]; simpl; [|by left].
  destruct (resolve_identity post) as [p|] eqn:R; simpl; [|by left].
  destruct (resolve_identity_postId _ _ R) as (pid & Hid & ->).
  case_bool_decide; simpl; [by left|].
  right. exists p, pid. eauto 10.
Qed.

(** The set only grows in a pass. *)
Lemma extract_loop_seen_mono (arts : list article) (m : option Z)
      (posts : list FacebookPost) (seen : gset string) :
  seen ⊆ (extract_loop arts m (posts, seen)).2.
Proof.
  destruct (extract_loop_appends arts m posts seen) as (new & _ & _ & _ & Hs).
  intros pid Hin. apply Hs. by left.
Qed.

(** A block that has been dealt with is passed over from then on, under any
    larger set. *)
Lemma block_step_settled (a : article) (posts posts' : list FacebookPost)
      (seen seen' : gset string) :
  (block_step a (posts, seen)).2.2 ⊆ seen' ->
  (block_step a (posts', seen')).2 = (posts', seen').
Proof.
  unfold block_step, try_block.
  destruct (_parse_article a) as [post|e]; simpl; [|done].
  destruct (resolve_identity post) as [p|]; simpl; [|done].
  case_bool_decide as Hin; simpl; intros Hsub.
  - rewrite bool_decide_eq_true_2; [done|]. by apply Hsub.
  - rewrite bool_decide_eq_true_2; [done|]. apply Hsub. set_solver.
Qed.

Lemma extract_loop_all_settled (arts : list article) (m : option Z)
      (posts : list FacebookPost) (seen : gset string) :
  (forall a posts', a ∈ arts -> (block_step a (posts', seen)).2 = (posts', seen)) ->
  extract_loop arts m (posts, seen) = (posts, seen).
Proof.
  induction arts as [|a rest IH]; intros Hs; [done|].
  rewrite extract_loop_cons.
  pose proof (Hs a posts ltac:(left)) as Ha.
  destruct (block_step a (posts, seen)) as [fl st']. simpl in Ha. subst st'.
  assert (extract_loop rest m (posts, seen) = (posts, seen)) as ->.
  { apply IH. intros b posts' Hb. apply Hs. by right. }
  destruct fl; [done|]. by destruct (cap_reached m _).
Qed.

Lemma extract_loop_settles (arts : list article) (posts posts' : list FacebookPost)
      (seen seen' : gset string) (a : article) :
  a ∈ arts ->
  (extract_loop arts None (posts, seen)).2 ⊆ seen' ->
  (block_step a (posts', seen')).2 = (posts', seen').
Proof.
  revert posts seen. induction arts as [|b rest IH]; intros posts seen Ha;
    [by inversion Ha|].
  rewrite extract_loop_cons.
  destruct (block_step b (posts, seen)) as [fl [posts1 seen1]] eqn:E.
  assert (extract_loop rest None (posts1, seen1)
          = match fl with
            | Continue => extract_loop rest None (posts1, seen1)
            | Fallthrough =>
                if cap_reached None (posts1, seen1).1 then (posts1, seen1)
                else extract_loop rest None (posts1, seen1)
            end) as <- by (by destruct fl).
  intros Hsub. apply elem_of_cons in Ha as [->|Ha].
  - apply (block_step_settled b posts posts' seen seen'). rewrite E. simpl.
    etrans; [apply (extract_loop_seen_mono rest None posts1 seen1)|done].
  - by apply (IH posts1 seen1).
Qed.

(** X14. A pass without a cap is idempotent: a second pass over the same
    snapshot, with the set the first one left and under any cap, returns no
    record and leaves the set as it is. *)
Theorem extract_posts_idempotent (arts : list article) (seen seen' : gset string)
        (posts : list FacebookPost) (max_posts : option Z) :
  extract_posts (snapshot arts) (Some seen) None = Returns (posts, seen') ->
  extract_posts (snapshot arts) (Some seen') max_posts = Returns ([], seen').
Proof.
  unfold extract_posts. simpl. intros [= E]. f_equal.
  apply extract_loop_all_settled. intros a posts' Ha.
  apply (extract_loop_settles arts [] posts' seen seen' a Ha). by rewrite E.
Qed.

(** A capped pass is the uncapped pass over a prefix of the snapshot. *)
Lemma extract_loop_capped_prefix (arts : list article) (m : option Z) (st : pass_state) :
  exists pre suf,
    arts = pre ++ suf /\ extract_loop arts m st = extract_loop pre None st.
Proof.
  revert st. induction arts as [|a rest IH]; intros st.
  - by exists [], [].
  - rewrite extract_loop_cons.
    destruct (block_step a st) as [fl st'] eqn:E.
    destruct (IH st') as (pre & suf & -> & Hpre).
    assert (extract_loop (a :: pre) None st = extract_loop pre None st') as Hcons
      by (rewrite extract_loop_cons, E; by destruct fl).
    destruct fl.
    + exists (a :: pre), suf. by rewrite Hcons.
    + destruct (cap_reached m st'.1).
      * exists [a], (pre ++ suf). split; [done|]. by rewrite extract_loop_cons, E.
      * exists (a :: pre), suf. by rewrite Hcons.
Qed.

Lemma extract_loop_app (l1 l2 : list article) (st : pass_state) :
  extract_loop (l1 ++ l2) None st = extract_loop l2 None (extract_loop l1 None st).
Proof.
  revert st. induction l1 as [|a rest IH]; intros st; [done|].
  simpl app. rewrite !extract_loop_cons.
  destruct (block_step a st) as [[] st']; simpl; apply IH.
Qed.

(** The records already in the list play no part in an uncapped pass. *)
Lemma block_step_frame (a : article) (p q : list FacebookPost) (seen : gset string) :
  block_step a (p ++ q, seen) =
  ((block_step a (q, seen)).1,
   (p ++ (block_step a (q, seen)).2.1, (block_step a (q, seen)).2.2)).
Proof.
  unfold block_step, try_block.
  destruct (_parse_article a) as [post|e]; simpl; [|done].
  destruct (resolve_identity post) as [r|]; simpl; [|done].
  case_bool_decide; simpl; [done|]. by rewrite app_assoc.
Qed.

Lemma extract_loop_frame (arts : list article) (p q : list FacebookPost)
      (seen : gset string) :
  extract_loop arts None (p ++ q, seen) =
  (p ++ (extract_loop arts None (q, seen)).1, (extract_loop arts None (q, seen)).2).
Proof.
  revert q seen. induction arts as [|a rest IH]; intros q seen; [done|].
  rewrite !extract_loop_cons, block_step_frame.
  destruct (block_step a (q, seen)) as [[] [q' seen']]; simpl; apply IH.
Qed.

(** X15. Nothing is lost to the cap: a pass under any cap followed by a pass
    without cap over the same snapshot returns, put together, the records of
    one pass without cap, in the same order, and leaves the same set. *)
Theorem extract_posts_resumes (arts : list article) (max_posts : option Z)
        (seen seen1 seen2 : gset string) (posts1 posts2 : list FacebookPost) :
  extract_posts (snapshot arts) (Some seen) max_posts = Returns (posts1, seen1) ->
  extract_posts (snapshot arts) (Some seen1) None = Returns (posts2, seen2) ->
  extract_posts (snapshot arts) (Some seen) None = Returns (posts1 ++ posts2, seen2).
Proof.
  unfold extract_posts. simpl. intros [= E1] [= E2]. f_equal.
  destruct (extract_loop_capped_prefix arts max_posts ([], seen))
    as (pre & suf & -> & Hpre).
  rewrite E1 in Hpre.
  rewrite extract_loop_app in E2 |- *.
  rewrite <- Hpre.
  assert (extract_loop pre None ([], seen1) = ([], seen1)) as Hs.
  { apply extract_loop_all_settled. intros a posts' Ha.
    apply (extract_loop_settles pre [] posts' seen seen1 a Ha). by rewrite <- Hpre. }
  rewrite Hs in E2.
  rewrite <- (app_nil_r posts1) at 1. rewrite extract_loop_frame, E2. done.
Qed.

(** X16. Under a cap of at least one, a pass returns the first records of
    the pass without cap, as many as the cap allows. *)
Theorem extract_posts_cap_takes (arts : list article) (m : Z)
        (seen seen1 seen2 : gset string) (capped full : list FacebookPost) :
  1 <= m ->
  extract_posts (snapshot arts) (Some seen) (Some m) = Returns (capped, seen1) ->
  extract_posts (snapshot arts) (Some seen) None = Returns (full, seen2) ->
  capped = take (Z.to_nat m) full.
Proof.
  unfold extract_posts. simpl. intros Hm [= E1] [= E2].
  assert (forall arts posts seen,
             Z.of_nat (length posts) < m ->
             (extract_loop arts (Some m) (posts, seen)).1
             = take (Z.to_nat m) (extract_loop arts None (posts, seen)).1) as Hgen.
  { clear. intros arts. induction arts as [|a rest IH]; intros posts seen Hlt.
    - simpl. rewrite take_ge; [done|lia].
    - rewrite !extract_loop_cons.
      destruct (block_step_cases a posts seen) as [Hsame|(p & pid & _ & _ & _ & ->)].
      + destruct (block_step a (posts, seen)) as [fl st']. simpl in Hsame. subst st'.
        simpl. destruct fl; [by apply IH|].
        destruct (m <=? Z.of_nat (length posts)) eqn:C;
          [apply Z.leb_le in C; lia|by apply IH].
      + simpl. destruct (m <=? Z.of_nat (length (posts ++ [p]))) eqn:C.
        * destruct (extract_loop_appends rest None (posts ++ [p]) ({[pid]} ∪ seen))
            as (new & -> & _).
          simpl. apply Z.leb_le in C. rewrite length_app in C. simpl in C.
          replace (Z.to_nat m) with (length (posts ++ [p]))
            by (rewrite length_app; simpl; lia).
          by rewrite take_app_length.
        * apply Z.leb_gt in C. by apply IH. }
  specialize (Hgen arts [] seen ltac:(simpl; lia)).
  by rewrite E1, E2 in Hgen.
Qed.

(** X17. A block whose identifier is in the set when the pass starts is
    dropped as a duplicate: wherever it stands in the snapshot, the pass is
    the pass without it. *)
Theorem extract_posts_duplicate_dropped (a : article) (p : FacebookPost) (pid : string)
        (pre rest : list article) (seen : gset string) (max_posts : option Z) :
  from_block a p ->
  postId p = Some pid ->
  pid ∈ seen ->
  extract_posts (snapshot (pre ++ a :: rest)) (Some seen) max_posts
  = extract_posts (snapshot (pre ++ rest)) (Some seen) max_posts.
Proof.
  intros (post & Hp & Hr) Hid Hin. unfold extract_posts. simpl. f_equal.
  generalize (@nil FacebookPost). revert seen Hin.
  induction pre as [|b pre IH]; intros seen Hin posts.
  - simpl app. rewrite extract_loop_cons.
    unfold block_step, try_block. rewrite Hp. simpl. rewrite Hr, Hid. simpl.
    by rewrite bool_decide_eq_true_2.
  - simpl app. rewrite !extract_loop_cons.
    destruct (block_step_cases b posts seen) as [Hsame|(q & qid & _ & _ & _ & ->)].
    + destruct (block_step b (posts, seen)) as [fl st']. simpl in Hsame. subst st'.
      simpl. destruct fl; [by apply IH|].
      destruct (cap_reached max_posts posts); [done|by apply IH].
    + simpl. destruct (cap_reached max_posts _); [done|]. apply IH. set_solver.
Qed.

(** Where the records of a pass come from. *)
Lemma extract_loop_provenance (arts : list article) (m : option Z)
      (posts : list FacebookPost) (seen : gset string) :
  exists arts' new,
    sublist arts' arts
    /\ Forall2 from_block arts' new
    /\ (extract_loop arts m (posts, seen)).1 = posts ++ new.
Proof.
  revert posts seen. induction arts as [|a rest IH]; intros posts seen.
  - exists [], []. simpl. by rewrite app_nil_r.
  - rewrite extract_loop_cons.
    destruct (block_step_cases a posts seen) as [Hsame|(p & pid & Hfrom & _ & _ & ->)].
    + destruct (block_step a (posts, seen)) as [fl st']. simpl in Hsame. subst st'.
      destruct (IH posts seen) as (arts' & new & Hsub & Hall & Hp).
      assert (exists arts'0 new0, sublist arts'0 (a :: rest)
                /\ Forall2 from_block arts'0 new0
                /\ (extract_loop rest m (posts, seen)).1 = posts ++ new0) as Hgo
        by (exists arts', new; split; [by apply sublist_cons|done]).
      destruct fl; [done|]. simpl.
      destruct (cap_reached m posts); [|done].
      exists [], []. simpl. rewrite app_nil_r. split; [apply sublist_nil_l|done].
    + simpl. destruct (cap_reached m (posts ++ [p])).
      * exists [a], [p]. split; [apply sublist_skip, sublist_nil_l|].
        split; [by repeat constructor|done].
      * destruct (IH (posts ++ [p]) ({[pid]} ∪ seen)) as (arts' & new & Hsub & Hall & ->).
        exists (a :: arts'), (p :: new). split; [by apply sublist_skip|].
        split; [by constructor|]. by rewrite <- app_assoc.
Qed.

(** X18. The records of a pass come from the blocks of the snapshot, at most
    one from a block and in the order of the blocks: each is what the loop
    body makes of its block. *)
Theorem extract_posts_in_document_order (arts : list article) (seen seen' : gset string)
        (max_posts : option Z) (posts : list FacebookPost) :
  extract_posts (snapshot arts) (Some seen) max_posts = Returns (posts, seen') ->
  exists arts', sublist arts' arts /\ Forall2 from_block arts' posts.
Proof.
  unfold extract_posts. simpl. intros [= E].
  destruct (extract_loop_provenance arts max_posts [] seen) as (arts' & new & ? & ? & Hp).
  rewrite E in Hp. simpl in Hp. subst new. eauto.
Qed.

(** The rendering of a number that is not negative: digits, at least one. *)
Lemma string_of_uint_digits (d : Decimal.uint) :
  Py.all_chars Py.is_decimal (DecimalString.NilEmpty.string_of_uint d) = true.
Proof. induction d; simpl; try done. Qed.

Lemma str_of_int_digits (n : Z) :
  0 <= n ->
  Py.str_of_int n <> EmptyString /\ Py.all_chars Py.is_decimal (Py.str_of_int n) = true.
Proof.
  intros Hn. unfold Py.str_of_int. destruct n as [|p|p]; [done| |lia].
  unfold Z.to_int, DecimalString.NilZero.string_of_int,
    DecimalString.NilZero.string_of_uint.
  pose proof (DecimalPos.Unsigned.to_uint_nonnil p) as Hnil.
  destruct (Pos.to_uint p) eqn:E; [done|..];
    (split; [done|]); rewrite <- E; apply string_of_uint_digits.
Qed.

(** X20. An identifier made by the loop for want of one in the metadata is
    a run of decimal digits, at least one, without a sign. *)
Theorem synthesized_id_digits (post p : FacebookPost) :
  Py.truthy (postId post) = false ->
  resolve_identity post = Some p ->
  exists pid,
    postId p = Some pid /\ pid <> EmptyString
    /\ Py.all_chars Py.is_decimal pid = true.
Proof.
  intros T Hr. unfold resolve_identity in Hr. rewrite T in Hr.
  destruct (Py.strip _); [done|]. injection Hr as <-. simpl.
  destruct (str_of_int_digits (Z.abs (hash (fallback_base post))) ltac:(lia))
    as [Hne Hdig].
  by exists (fallback_id post).
Qed.

Lemma from_block_truthy (a : article) (p : FacebookPost) :
  from_block a p -> Py.truthy (postId p) = true.
Proof.
  intros (post & Hp & Hr). unfold resolve_identity in Hr.
  destruct (Py.truthy (postId post)) eqn:T; [by injection Hr as <-|].
  destruct (Py.strip _); [done|]. injection Hr as <-. simpl.
  destruct (str_of_int_digits (Z.abs (hash (fallback_base post))) ltac:(lia))
    as [Hne _].
  unfold fallback_id. by destruct (Py.str_of_int _).
Qed.

(** X19. Every record a pass returns has an identifier, and it is not the
    empty string. *)
Theorem extract_posts_ids_populated (arts : list article) (seen seen' : gset string)
        (max_posts : option Z) (posts : list FacebookPost) :
  extract_posts (snapshot arts) (Some seen) max_posts = Returns (posts, seen') ->
  Forall (fun p => Py.truthy (postId p) = true) posts.
Proof.
  unfold extract_posts. simpl. intros [= E].
  destruct (extract_loop_provenance arts max_posts [] seen)
    as (arts' & new & Hsub & Hall & Hp).
  rewrite E in Hp. simpl in Hp. subst new.
  clear E Hsub.
  induction Hall as [|a p arts' posts Hfrom _ IH]; constructor; [|done].
  by apply (from_block_truthy a).
Qed.

(** X21. The set a pass leaves is the set it was given with the identifiers
    of the returned records added, and nothing else: a block that is passed
    over leaves no identifier behind. *)
Theorem extract_posts_seen_exact (arts : list article) (seen seen' : gset string)
        (max_posts : option Z) (posts : list FacebookPost) (pid : string) :
  extract_posts (snapshot arts) (Some seen) max_posts = Returns (posts, seen') ->
  pid ∈ seen' <-> pid ∈ seen \/ Some pid ∈ postId <$> posts.
Proof.
  unfold extract_posts. simpl. intros [= E].
  destruct (extract_loop_appends arts max_posts [] seen) as (new & Hp & _ & _ & Hs).
  rewrite E in Hp, Hs. simpl in *. subst new. apply Hs.
Qed.

End Passes.

(** ** The further properties on the sample blocks *)

Lemma parse_engagement_number_no_digit_sample :
  _parse_engagement_number "no data, yet." = Returns None.
Proof. apply parse_engagement_number_no_digit. reflexivity. Defined.


Lemma comment_label_scaled_sample :
  _parse_engagement_number "3 comments" = count_scaled "3 comments" 1000000.
Proof. apply (comment_label_scaled "3 comments"). reflexivity. Defined.

Lemma engagement_last_like_wins_sample :
  match _parse_engagement_nodes
          ([Cases.k_likes_label] ++ Cases.likes_label
             :: [Cases.comments_label; Cases.bare_like_label; Cases.plain_label])
          (None, None, None) with
  | Returns (l, c, _) => l = Some 12000 /\ c = Some 3000000
  | Raises _ => False
  end.
Proof.
  destruct (_parse_engagement_nodes _ _) as [[[l c] s]|] eqn:E;
    [|vm_compute in E; discriminate].
  split; [|vm_compute in E; congruence].
  refine (proj2 (engagement_last_like_wins [Cases.k_likes_label]
                   [Cases.comments_label; Cases.bare_like_label; Cases.plain_label]
                   Cases.likes_label " 12 Likes " 12000 (None, None, None)
                   _ _ _ _) l c s E).
  - reflexivity.
  - reflexivity.
  - vm_compute. reflexivity.
  - repeat constructor.
Defined.

Lemma engagement_counts_kept_sample :
  (is_Some (Some 5) -> is_Some (Some 5))
  /\ (is_Some (@None Z) -> is_Some (@None Z))
  /\ (is_Some (@None Z) -> is_Some (@None Z)).
Proof.
  apply (engagement_counts_kept [Cases.bare_like_label; Cases.plain_label]
           (Some 5) None None (Some 5) None None).
  vm_compute. reflexivity.
Defined.

Lemma parse_article_count_error_sample :
  exists e,
    @_parse_article Sample.runtime
      (Cases.with_labels Sample.hello
         ([Cases.likes_label] ++ Cases.huge_label :: [Cases.plain_label]))
    = Raises e.
Proof.
  apply (@parse_article_count_error Sample.runtime _ [Cases.likes_label]
           [Cases.plain_label] Cases.huge_label
           (Py.str_of_int (10 ^ 400) +:+ " shares") OverflowError
           (Some 12000, None, None));
    vm_compute; reflexivity.
Defined.

Lemma safe_get_nested_first_present_sample :
  _safe_get_nested (PDict Cases.metadata) (["top_level_post_id"] ++ "mf_story_key" :: [])
  = Some "k9".
Proof.
  apply (safe_get_nested_first_present Cases.metadata ["top_level_post_id"] []
           "mf_story_key" (PStr "k9")).
  - repeat constructor.
  - reflexivity.
Defined.

Lemma safe_get_nested_absent_sample :
  _safe_get_nested (PDict Cases.metadata) ["top_level_post_id"; "story"] = None.
Proof.
  apply (safe_get_nested_absent (PDict Cases.metadata)). repeat constructor.
Defined.

Lemma parse_article_record_invariants_sample :
  exists post,
    @_parse_article Sample.runtime Sample.hello = Returns post
    /\ topLevelUrl post = url post
    /\ (exists t, timestamp post = Some t
                  /\ (time_time Sample.hello <> 0 -> t <> 0))
    /\ pageName post <> Some EmptyString.
Proof.
  destruct (@_parse_article Sample.runtime Sample.hello) as [post|] eqn:E;
    [|vm_compute in E; discriminate].
  exists post. split; [reflexivity|].
  exact (@parse_article_record_invariants Sample.runtime Sample.hello post E).
Defined.

Lemma parse_article_without_metadata_sample :
  @_parse_article Sample.runtime (with_data_ft Sample.hello (Returns (Some "not json")))
  = @_parse_article Sample.runtime (with_data_ft Sample.hello (Returns None))
  /\ exists post,
      @_parse_article Sample.runtime
        (with_data_ft Sample.hello (Returns (Some "not json"))) = Returns post
      /\ pageId post = None /\ postId post = None.
Proof.
  destruct (@parse_article_without_metadata Sample.runtime Sample.hello
              (Some "not json")) as [Hsame Hnone].
  - right. left. exists ValueError. reflexivity.
  - split; [exact Hsame|].
    destruct (@_parse_article Sample.runtime
                (with_data_ft Sample.hello (Returns (Some "not json"))))
      as [post|] eqn:E; [|vm_compute in E; discriminate].
    exists post. split; [reflexivity|]. by apply Hnone.
Defined.

Lemma parse_article_empty_block_sample :
  @_parse_article Sample.runtime Sample.blank =
  Returns {| facebookUrl := None; pageId := None; postId := None; pageName := None;
             url := None; time := None; timestamp := Some (time_time Sample.blank);
             likes := None; comments := None; shares := None; text := None;
             link := None; thumb := None; topLevelUrl := None |}.
Proof.
  apply (@parse_article_empty_block Sample.runtime Sample.blank).
  - reflexivity.
  - intros sel. simpl. repeat (destruct (String.eqb sel _)); reflexivity.
  - intros sel. reflexivity.
Defined.

Lemma extract_posts_idempotent_sample :
  @extract_posts Sample.runtime (snapshot Cases.three)
    (Some (Cases.pass Cases.three ∅ None).2) (Some 1)
  = Returns ([], (Cases.pass Cases.three ∅ None).2).
Proof.
  apply (@extract_posts_idempotent Sample.runtime Cases.three ∅ _
           (Cases.pass Cases.three ∅ None).1 (Some 1)).
  vm_compute. reflexivity.
Defined.

Lemma extract_posts_resumes_sample :
  @extract_posts Sample.runtime (snapshot Cases.three) (Some ∅) None
  = Returns ((Cases.pass Cases.three ∅ (Some 1)).1
             ++ (Cases.pass Cases.three (Cases.pass Cases.three ∅ (Some 1)).2 None).1,
             (Cases.pass Cases.three (Cases.pass Cases.three ∅ (Some 1)).2 None).2).
Proof.
  apply (@extract_posts_resumes Sample.runtime Cases.three (Some 1) ∅
           (Cases.pass Cases.three ∅ (Some 1)).2);
    vm_compute; reflexivity.
Defined.

Lemma extract_posts_cap_takes_sample :
  (Cases.pass Cases.three ∅ (Some 2)).1
  = take (Z.to_nat 2) (Cases.pass Cases.three ∅ None).1.
Proof.
  apply (@extract_posts_cap_takes Sample.runtime Cases.three 2 ∅
           (Cases.pass Cases.three ∅ (Some 2)).2
           (Cases.pass Cases.three ∅ None).2);
    [lia|vm_compute; reflexivity..].
Defined.

Lemma extract_posts_duplicate_dropped_sample :
  @extract_posts Sample.runtime
    (snapshot ([Sample.hello] ++ Sample.tagged :: [Sample.ab_c]))
    (Some {["abc123"]}) None
  = @extract_posts Sample.runtime
      (snapshot ([Sample.hello] ++ [Sample.ab_c])) (Some {["abc123"]}) None.
Proof.
  apply (@extract_posts_duplicate_dropped Sample.runtime Sample.tagged
           Cases.tagged_post "abc123").
  - exists Cases.tagged_post. split; vm_compute; reflexivity.
  - reflexivity.
  - set_solver.
Defined.

Lemma extract_posts_in_document_order_sample :
  exists arts',
    sublist arts' Cases.three
    /\ Forall2 (@from_block Sample.runtime) arts' (Cases.pass Cases.three ∅ (Some 2)).1.
Proof.
  apply (@extract_posts_in_document_order Sample.runtime Cases.three ∅
           (Cases.pass Cases.three ∅ (Some 2)).2 (Some 2)).
  vm_compute. reflexivity.
Defined.

Lemma extract_posts_ids_populated_sample :
  Forall (fun p => Py.truthy (postId p) = true) (Cases.pass Cases.three ∅ None).1.
Proof.
  apply (@extract_posts_ids_populated Sample.runtime Cases.three ∅
           (Cases.pass Cases.three ∅ None).2 None).
  vm_compute. reflexivity.
Defined.

Lemma synthesized_id_digits_sample :
  exists pid,
    postId (set_postId
              (@fallback_id Sample.runtime (Sample.bare (Some "hello") (Some "u") None))
              (Sample.bare (Some "hello") (Some "u") None)) = Some pid
    /\ pid <> EmptyString
    /\ Py.all_chars Py.is_decimal pid = true.
Proof.
  apply (@synthesized_id_digits Sample.runtime
           (Sample.bare (Some "hello") (Some "u") None)); reflexivity.
Defined.

Lemma extract_posts_seen_exact_sample :
  "abc123" ∈ (Cases.pass Cases.three ∅ None).2
  <-> "abc123" ∈ (∅ : gset string)
      \/ Some "abc123" ∈ postId <$> (Cases.pass Cases.three ∅ None).1.
Proof.
  apply (@extract_posts_seen_exact Sample.runtime Cases.three ∅ _ None).
  vm_compute. reflexivity.
Defined.
